(** * Jira-Sonarqube-Fetcher: a shallow embedding of the fetch, extraction
    and aggregation code, with the properties of its specification.

    Sources embedded:
    - [src/jira/jira_fetch.py]: [generate_email], [extract_relevant_info],
      [save_data_to_file], [fetch_and_process_issues_for_tester],
      [fetch_data_for_period], [main];
    - [src/jira/jira_plot.py]: the frame [main] builds, the month column,
      [calculate_average_time] and the per-tester monthly sum of
      [plot_total_time_spent_per_tester];
    - [src/sonarqube/sonarqube_plot.py]: [convert_effort_to_minutes], the
      histogram values of [plot_issues_effort] and the sort-then-cumsum of
      [plot_cumulative_effort_over_time];
    - [src/sonarqube/sonarqube_fetch.py]: [fetch_and_save_project_data]
      and the three fetches it runs.

    Python strings are lists of characters (code points 0-255, the Latin-1
    block of Unicode); a Python call that raises is [None] in [option]. *)

From Stdlib Require Import ZArith QArith List Ascii String Bool Lia.
From Stdlib Require Import Permutation Sorted.
Import ListNotations.

Set Warnings "-register-all".

Open Scope list_scope.
Open Scope Z_scope.

(* ================================================================= *)
(** ** Python strings *)

Definition pystr := list ascii.

(** A string literal as a Python string. *)
Definition S_ (s : string) : pystr := list_ascii_of_string s.

Definition code (c : ascii) : Z := Z.of_nat (nat_of_ascii c).

(** [str.isspace] on code points 0-255: \t \n \v \f \r, the separators
    0x1c-0x1f, space, NEL (0x85) and NBSP (0xa0). *)
Definition is_space (c : ascii) : bool :=
  let n := code c in
  ((9 <=? n) && (n <=? 13)) || ((28 <=? n) && (n <=? 32)) ||
  (n =? 133) || (n =? 160).

Definition is_digit (c : ascii) : bool :=
  (48 <=? code c) && (code c <=? 57).

Definition digit_value (c : ascii) : Z := code c - 48.

(** [str.lower] on code points 0-255: A-Z and the Latin-1 capitals
    0xc0-0xde except the multiplication sign 0xd7. *)
Definition lower_char (c : ascii) : ascii :=
  let n := code c in
  if ((65 <=? n) && (n <=? 90)) || ((192 <=? n) && (n <=? 222) && negb (n =? 215))
  then ascii_of_nat (Z.to_nat (n + 32)) else c.

Definition lower (s : pystr) : pystr := map lower_char s.

(** [s] starts with [p]: the rest of [s] after [p]. *)
Fixpoint strip_prefix (p s : pystr) : option pystr :=
  match p, s with
  | [], _ => Some s
  | c :: p', d :: s' => if Ascii.eqb c d then strip_prefix p' s' else None
  | _ :: _, [] => None
  end.

(** [sub in s]. *)
Fixpoint py_in (sub s : pystr) : bool :=
  match strip_prefix sub s with
  | Some _ => true
  | None => match s with [] => false | _ :: s' => py_in sub s' end
  end.

(** [s.replace(old, new)] for a non-empty [old] (every call site): a left
    to right scan replacing non-overlapping occurrences. Each step consumes
    at least one character, so [length s] steps of fuel suffice. *)
Fixpoint replace_fuel (fuel : nat) (old new s : pystr) : pystr :=
  match fuel with
  | O => s
  | S fuel' =>
      match s with
      | [] => []
      | c :: s' =>
          match strip_prefix old s with
          | Some rest => new ++ replace_fuel fuel' old new rest
          | None => c :: replace_fuel fuel' old new s'
          end
      end
  end.

Definition replace (old new s : pystr) : pystr :=
  replace_fuel (List.length s) old new s.

(** [s.split()]: maximal runs of non-whitespace characters. [cur] holds
    the current token reversed. *)
Fixpoint split_aux (cur : pystr) (s : pystr) : list pystr :=
  match s with
  | [] => match cur with [] => [] | _ => [rev cur] end
  | c :: s' =>
      if is_space c then
        match cur with
        | [] => split_aux [] s'
        | _ => rev cur :: split_aux [] s'
        end
      else split_aux (c :: cur) s'
  end.

Definition split (s : pystr) : list pystr := split_aux [] s.

(** [s.strip()]. *)
Fixpoint drop_spaces (s : pystr) : pystr :=
  match s with
  | c :: s' => if is_space c then drop_spaces s' else s
  | [] => []
  end.

Definition strip (s : pystr) : pystr := rev (drop_spaces (rev (drop_spaces s))).

(** Base-10 digits of [int()]: digits, single underscores allowed between
    two digits. *)
Fixpoint digits_aux (acc : Z) (s : pystr) : option Z :=
  match s with
  | [] => Some acc
  | c :: s' =>
      if is_digit c then digits_aux (acc * 10 + digit_value c) s'
      else if Ascii.eqb c "_"%char then
        match s' with
        | d :: s'' => if is_digit d then digits_aux (acc * 10 + digit_value d) s''
                      else None
        | [] => None
        end
      else None
  end.

Definition py_digits (s : pystr) : option Z :=
  match s with
  | c :: s' => if is_digit c then digits_aux (digit_value c) s' else None
  | [] => None
  end.

(** [int(s)] on a str: surrounding whitespace, an optional sign, then the
    digits; [None] is the [ValueError]. *)
Definition py_int (s : pystr) : option Z :=
  match strip s with
  | c :: s' =>
      if Ascii.eqb c "+"%char then py_digits s'
      else if Ascii.eqb c "-"%char then option_map Z.opp (py_digits s')
      else py_digits (c :: s')
  | [] => None
  end.

(* ================================================================= *)
(** ** [convert_effort_to_minutes] (sonarqube_plot.py) *)

(** One iteration of the loop over [parts]: the new [total_minutes];
    a [ValueError] of [int] is the [continue]. *)
Definition effort_step (total_minutes : Z) (part : pystr) : Z :=
  if py_in (S_ "h") part then
    match py_int (replace (S_ "h") [] part) with
    | Some hours => total_minutes + hours * 60
    | None => total_minutes
    end
  else if py_in (S_ "min") part then
    match py_int (replace (S_ "min") [] part) with
    | Some minutes => total_minutes + minutes
    | None => total_minutes
    end
  else total_minutes.

Definition convert_effort_to_minutes (effort_str : pystr) : Z :=
  let effort_str :=
    replace (S_ "  ") (S_ " ")
      (replace (S_ "min") (S_ " min") (replace (S_ "h") (S_ "h ") effort_str)) in
  let parts := split effort_str in
  fold_left effort_step parts 0.

(* ================================================================= *)
(** ** [generate_email] (jira_fetch.py) *)

(** [firstname, surname = name.split()] raises unless there are exactly
    two parts. *)
Definition generate_email (name : pystr) (ext : bool) : option pystr :=
  match split name with
  | [firstname; surname] =>
      let domain := if ext then S_ "@ext.ubp.ch" else S_ "@ubp.ch" in
      Some (lower firstname ++ S_ "." ++ lower surname ++ domain)
  | _ => None
  end.

(* ================================================================= *)
(** ** Calendar dates, [relativedelta] and [fetch_data_for_period] *)

(** A [datetime] reduced to its date: [strftime('%Y-%m-%d')] keeps only
    these three fields. *)
Record date := mkdate { year : Z; month : Z; day : Z }.

Definition MINYEAR := 1.
Definition MAXYEAR := 9999.

Definition is_leap (y : Z) : bool :=
  (y mod 4 =? 0) && (negb (y mod 100 =? 0) || (y mod 400 =? 0)).

(** [calendar.monthrange(y, m)[1]]. *)
Definition days_in_month (y m : Z) : Z :=
  if m =? 2 then (if is_leap y then 29 else 28)
  else if (m =? 4) || (m =? 6) || (m =? 9) || (m =? 11) then 30
  else 31.

Definition valid_date (d : date) : bool :=
  (MINYEAR <=? year d) && (year d <=? MAXYEAR) &&
  (1 <=? month d) && (month d <=? 12) &&
  (1 <=? day d) && (day d <=? days_in_month (year d) (month d)).

(** [d + relativedelta(months=k)]: the month moves by [k] (carried into the
    year), the day is clamped to the length of the new month; a year out of
    [MINYEAR..MAXYEAR] raises. *)
Definition shift_months (d : date) (k : Z) : option date :=
  let idx := year d * 12 + (month d - 1) + k in
  let y := idx / 12 in
  let m := idx mod 12 + 1 in
  if (MINYEAR <=? y) && (y <=? MAXYEAR)
  then Some (mkdate y m (Z.min (day d) (days_in_month y m)))
  else None.

(** [d - timedelta(days=1)]; before [0001-01-01] it raises. *)
Definition prev_day (d : date) : option date :=
  if 1 <? day d then Some (mkdate (year d) (month d) (day d - 1))
  else if 1 <? month d then
    Some (mkdate (year d) (month d - 1) (days_in_month (year d) (month d - 1)))
  else if MINYEAR <? year d then Some (mkdate (year d - 1) 12 31)
  else None.

(** [d.replace(day=1)]. *)
Definition first_of_month (d : date) : date := mkdate (year d) (month d) 1.

(** The two dates computed by one iteration of the loop of
    [fetch_data_for_period]:
<<
start_date = (today - relativedelta(months=i)).replace(day=1)
end_date = (today - relativedelta(months=i-1, days=1)) if i != 0 else today
>>
    [today - relativedelta(months=i-1, days=1)] moves the month by
    [-(i-1)] first and then subtracts the day. *)
Definition window (today : date) (i : Z) : option (date * date) :=
  match shift_months today (- i) with
  | None => None
  | Some s =>
      let start_date := first_of_month s in
      if negb (i =? 0) then
        match shift_months today (- (i - 1)) with
        | None => None
        | Some e => match prev_day e with
                    | None => None
                    | Some end_date => Some (start_date, end_date)
                    end
        end
      else Some (start_date, today)
  end.

(** [range(months_back, -1, -1)]. *)
Definition range_down (months_back : Z) : list Z :=
  if months_back <? 0 then []
  else map (fun k => months_back - Z.of_nat k) (seq 0 (S (Z.to_nat months_back))).

(** The windows of [fetch_data_for_period], in loop order; [None] if a
    date computation raises. *)
Fixpoint windows_of (today : date) (is : list Z) : option (list (date * date)) :=
  match is with
  | [] => Some []
  | i :: is' =>
      match window today i, windows_of today is' with
      | Some w, Some ws => Some (w :: ws)
      | _, _ => None
      end
  end.

Definition windows (months_back : Z) (today : date) : option (list (date * date)) :=
  windows_of today (range_down months_back).

(** A tester of [testers_config.json]. *)
Record tester := mktester { t_name : pystr; t_ext : bool; t_trigram : pystr }.

(** One call [fetch_and_process_issues_for_tester(tester, start_date, end_date)],
    the only place a query is issued. *)
Definition call := (tester * date * date)%type.

(** The run of [fetch_data_for_period]: the calls made in order, and
    whether the loop ended normally or by an exception, of a date
    computation or of a call. *)
Inductive run := Completed (calls : list call) | Raised (calls : list call).

(** The inner loop over the testers of one window. [returns c] tells
    whether the call [c] returns ([true]) or raises; nothing in
    [fetch_data_for_period] catches an exception, so the first call that
    raises ends the loop (it is the last call made). The calls made, and
    whether the loop ended normally. *)
Fixpoint calls_loop (returns : call -> bool) (cs : list call) : list call * bool :=
  match cs with
  | [] => ([], true)
  | c :: cs' =>
      if returns c then
        let (made, ok) := calls_loop returns cs' in (c :: made, ok)
      else ([c], false)
  end.

Fixpoint fetch_loop (returns : call -> bool) (today : date) (testers : list tester)
    (is : list Z) : run :=
  match is with
  | [] => Completed []
  | i :: is' =>
      match window today i with
      | None => Raised []
      | Some (start_date, end_date) =>
          let (here, ok) := calls_loop returns
                              (map (fun t => (t, start_date, end_date)) testers) in
          if ok then
            match fetch_loop returns today testers is' with
            | Completed cs => Completed (here ++ cs)
            | Raised cs => Raised (here ++ cs)
            end
          else Raised here
      end
  end.

Definition fetch_data_for_period (returns : call -> bool) (months_back : Z)
    (testers : list tester) (today : date) : run :=
  fetch_loop returns today testers (range_down months_back).

(** The calls of the loop, window by window and, inside a window, tester
    by tester, when the windows [ws] compute. *)
Definition planned_calls (testers : list tester) (ws : list (date * date)) : list call :=
  flat_map (fun w => map (fun t => (t, fst w, snd w)) testers) ws.

(** [main] after [parse_args] and [load_testers_config]: a [--months]
    value below 1 is logged and [main] returns without fetching. *)
Inductive main_outcome := MainRejected | MainRan (r : run).

Definition main (returns : call -> bool) (months_back : Z) (testers : list tester)
    (today : date) : main_outcome :=
  if months_back <? 1 then MainRejected
  else MainRan (fetch_data_for_period returns months_back testers today).

(** The day after [d] (the spec's "[end + 1 day]"). *)
Definition next_day (d : date) : date :=
  if day d <? days_in_month (year d) (month d)
  then mkdate (year d) (month d) (day d + 1)
  else if month d <? 12 then mkdate (year d) (month d + 1) 1
  else mkdate (year d + 1) 1 1.

(* ================================================================= *)
(** ** JSON values and Python dicts *)

(** A value of [json.load] (numbers are integers: every number the code
    reads is a count of seconds or an id). *)
Inductive json :=
| JNull
| JBool (b : bool)
| JNum (z : Z)
| JStr (s : pystr)
| JArr (l : list json)
| JObj (kvs : list (pystr * json)).

Definition key_eqb (k k' : pystr) : bool :=
  if list_eq_dec ascii_dec k k' then true else false.

(** A JSON object read by [json.load]: a repeated key keeps its last value. *)
Definition lookup (k : pystr) (kvs : list (pystr * json)) : option json :=
  fold_left (fun acc kv => if key_eqb k (fst kv) then Some (snd kv) else acc) kvs None.

(** The keys of the dict, once each, in order of first insertion. *)
Definition dict_keys (kvs : list (pystr * json)) : list pystr :=
  fold_left (fun acc kv => if existsb (key_eqb (fst kv)) acc then acc else acc ++ [fst kv])
    kvs [].

(** [d.get(k, default)]; only a dict has [.get] ([AttributeError]
    otherwise). *)
Definition get_or (kvs : list (pystr * json)) (k : pystr) (default : json) : json :=
  match lookup k kvs with Some v => v | None => default end.

Definition dict_get (d : json) (k : pystr) (default : json) : option json :=
  match d with
  | JObj kvs => Some (get_or kvs k default)
  | _ => None
  end.

(** [for x in v]: a list yields its items, a str its characters, a dict its
    keys; anything else raises [TypeError]. *)
Definition py_iter (v : json) : option (list json) :=
  match v with
  | JArr l => Some l
  | JStr s => Some (map (fun c => JStr [c]) s)
  | JObj kvs => Some (map JStr (dict_keys kvs))
  | _ => None
  end.

(** [bool(v)]. *)
Definition truthy (v : json) : bool :=
  match v with
  | JNull => false
  | JBool b => b
  | JNum z => negb (z =? 0)
  | JStr s => match s with [] => false | _ => true end
  | JArr l => match l with [] => false | _ => true end
  | JObj kvs => match kvs with [] => false | _ => true end
  end.

(** A dict built by the code: keys unique, in insertion order. *)
Definition pydict := list (pystr * json).

(** [d[k] = v]: an existing key keeps its place. *)
Fixpoint dict_set (d : pydict) (k : pystr) (v : json) : pydict :=
  match d with
  | [] => [(k, v)]
  | (k', v') :: d' => if key_eqb k k' then (k', v) :: d' else (k', v') :: dict_set d' k v
  end.

(** [d.update(new)]. *)
Definition dict_update (d : pydict) (new : pydict) : pydict :=
  fold_left (fun acc kv => dict_set acc (fst kv) (snd kv)) new d.

Definition dict_lookup (d : pydict) (k : pystr) : option json :=
  match find (fun kv => key_eqb k (fst kv)) d with
  | Some kv => Some (snd kv)
  | None => None
  end.

Definition obind {A B} (m : option A) (f : A -> option B) : option B :=
  match m with Some a => f a | None => None end.

Local Notation "x <- m ;; k" := (obind m (fun x => k))
  (at level 61, m at next level, right associativity).

(* ================================================================= *)
(** ** [extract_relevant_info] (jira_fetch.py) *)

(** The dicts built by the loop live in a store: [relevant_info] holds the
    addresses appended to the result list, and the Python variable [info]
    the address of the dict it names (unbound before the first work-log).
    [info.update(...)] mutates the dict in the store, so the change is seen
    through [relevant_info]. *)
Record ex_state := mkex {
  store : list pydict;
  relevant_info : list nat;
  info : option nat }.

Definition ex_init : ex_state := mkex [] [] None.

Fixpoint store_set (st : list pydict) (a : nat) (d : pydict) : list pydict :=
  match st, a with
  | [], _ => []
  | _ :: st', O => d :: st'
  | x :: st', S a' => x :: store_set st' a' d
  end.

(** [for worklog in worklogs: info = {...}; relevant_info.append(info)] *)
Fixpoint worklog_loop (issue : json) (worklogs : list json) (st : ex_state)
    : option ex_state :=
  match worklogs with
  | [] => Some st
  | worklog :: rest =>
      author1 <- dict_get worklog (S_ "author") (JObj []) ;;
      user_name <- dict_get author1 (S_ "displayName") JNull ;;
      author2 <- dict_get worklog (S_ "author") (JObj []) ;;
      user_email <- dict_get author2 (S_ "emailAddress") JNull ;;
      issue_key <- dict_get issue (S_ "key") JNull ;;
      issue_id <- dict_get issue (S_ "id") JNull ;;
      worklog_id <- dict_get worklog (S_ "id") JNull ;;
      time_spent_seconds <- dict_get worklog (S_ "timeSpentSeconds") JNull ;;
      worklog_start <- dict_get worklog (S_ "started") JNull ;;
      let d : pydict :=
        [(S_ "user_name", user_name); (S_ "user_email", user_email);
         (S_ "issue_key", issue_key); (S_ "issue_id", issue_id);
         (S_ "worklog_id", worklog_id);
         (S_ "time_spent_seconds", time_spent_seconds);
         (S_ "worklog_start", worklog_start)] in
      let a := List.length (store st) in
      worklog_loop issue rest
        (mkex (store st ++ [d]) (relevant_info st ++ [a]) (Some a))
  end.

(** The body of [for issue in data.get('issues', [])]. *)
Definition issue_step (st : ex_state) (issue : json) : option ex_state :=
  fields <- dict_get issue (S_ "fields") (JObj []) ;;
  worklog <- dict_get fields (S_ "worklog") (JObj []) ;;
  worklogs <- dict_get worklog (S_ "worklogs") (JArr []) ;;
  ws <- py_iter worklogs ;;
  st1 <- worklog_loop issue ws st ;;
  fields' <- dict_get issue (S_ "fields") (JObj []) ;;
  timetracking <- dict_get fields' (S_ "timetracking") (JObj []) ;;
  if truthy timetracking then
    (* [info] unbound: [UnboundLocalError] *)
    a <- info st1 ;;
    o <- dict_get timetracking (S_ "originalEstimateSeconds") JNull ;;
    r <- dict_get timetracking (S_ "remainingEstimateSeconds") JNull ;;
    t <- dict_get timetracking (S_ "timeSpentSeconds") JNull ;;
    d <- nth_error (store st1) a ;;
    Some (mkex (store_set (store st1) a
                  (dict_update d [(S_ "original_estimate_seconds", o);
                                  (S_ "remaining_estimate_seconds", r);
                                  (S_ "time_spent_seconds", t)]))
               (relevant_info st1) (info st1))
  else Some st1.

Fixpoint issue_loop (issues : list json) (st : ex_state) : option ex_state :=
  match issues with
  | [] => Some st
  | issue :: rest => st' <- issue_step st issue ;; issue_loop rest st'
  end.

(** [extract_relevant_info(data)]: the dicts of [relevant_info] as they
    are when the function returns; [None] when it raises. *)
Definition extract_relevant_info (data : json) : option (list pydict) :=
  issues_v <- dict_get data (S_ "issues") (JArr []) ;;
  issues <- py_iter issues_v ;;
  st <- issue_loop issues ex_init ;;
  Some (map (fun a => nth a (store st) []) (relevant_info st)).

(* ================================================================= *)
(** ** Numeric coercion and the monthly aggregations (jira_plot.py) *)

Module JiraPlot.

(** A float of a pandas column, as its rational value or one of the three
    non-finite values. *)
Inductive num := Fin (q : Q) | PInf | NInf | NaN.

Definition is_fin (v : num) : bool :=
  match v with Fin _ => true | _ => false end.

(** [df.replace([np.inf, -np.inf], np.nan)] on one cell. *)
Definition replace_inf (v : num) : num :=
  match v with PInf | NInf => NaN | _ => v end.

(** [column / 3600]. *)
Definition div3600 (v : num) : num :=
  match v with Fin q => Fin (q / 3600) | _ => v end.

(** A record of [load_data]: [displayName] is a string or [null]. *)
Record raw_row := mkraw {
  raw_user_name : option pystr;
  raw_worklog_start : json;
  raw_time_spent_seconds : json }.

(** A row of the data frame of [main]. [month] is the column that
    [calculate_average_time] adds ([[]] before). *)
Record frame_row := mkfr {
  user_name : option pystr;
  worklog_start : json;
  month : pystr;
  time_spent_seconds : num;
  time_spent_hours : num }.

(** [pd.to_numeric(column, errors='coerce', downcast='float')] of
    [main]. Each cell is first coerced to a float64 ([to_numeric], the
    coercion of one cell). The downcast then decides for the whole column:
    it becomes float32 when every value is within [5e-4] of its float32
    rounding [round32] ([np.allclose] with [rtol=0]; a [NaN] is close to a
    [NaN] and an infinity to itself), and stays as it is otherwise.
    [round32] gives an infinity beyond the float32 range. [downcast_float]
    returns what the decision does to each cell. *)
Definition fits32 (round32 : Q -> num) (v : num) : bool :=
  match v with
  | Fin q => match round32 q with
             | Fin q' => Qle_bool (q' - q) (5 # 10000) && Qle_bool (q - q') (5 # 10000)
             | _ => false
             end
  | _ => true
  end.

Definition to_float32 (round32 : Q -> num) (v : num) : num :=
  match v with Fin q => round32 q | _ => v end.

Definition downcast_float (round32 : Q -> num) (col : list num) : num -> num :=
  if forallb (fits32 round32) col then to_float32 round32 else fun v => v.

(** One row of the frame of [main] once [conv] (the downcast of the
    column) is known:
<<
df['time_spent_seconds'] = pd.to_numeric(df['time_spent_seconds'], errors='coerce', downcast='float')
df['time_spent_hours'] = df['time_spent_seconds'] / 3600
>> *)
Definition numeric_row (conv : num -> num) (to_numeric : json -> num) (r : raw_row)
    : frame_row :=
  let secs := conv (to_numeric (raw_time_spent_seconds r)) in
  mkfr (raw_user_name r) (raw_worklog_start r) [] secs (div3600 secs).

Definition main_frame (to_numeric : json -> num) (round32 : Q -> num)
    (records : list raw_row) : list frame_row :=
  let conv := downcast_float round32
                (map (fun r => to_numeric (raw_time_spent_seconds r)) records) in
  map (numeric_row conv to_numeric) records.

(** What [pd.to_datetime] skips when it looks for the value to guess the
    column's format from (pandas' [first_non_null]): nulls, the empty
    string, the strings it reads as NaT, ["now"] and ["today"]. *)
Definition skipped_for_guess (v : json) : bool :=
  match v with
  | JNull => true
  | JStr s => existsb (key_eqb s) [S_ ""; S_ "NaT"; S_ "nat"; S_ "NAT"; S_ "nan"; S_ "NaN";
                                   S_ "NAN"; S_ "now"; S_ "today"]
  | _ => false
  end.

Fixpoint first_non_null (col : list json) : option json :=
  match col with
  | [] => None
  | v :: col' => if skipped_for_guess v then first_non_null col' else Some v
  end.

(** The format [pd.to_datetime] (pandas 2) uses for the whole column:
    [guess] ([guess_datetime_format]) of the first value it does not skip,
    when that value is a string. [None] when there is no such value or no
    format is guessed; each value is then parsed on its own. *)
Definition infer_format (guess : pystr -> option pystr) (col : list json) : option pystr :=
  match first_non_null col with
  | Some (JStr s) => guess s
  | _ => None
  end.

(** Code-point order on strings, as Python and pandas sort them. *)
Fixpoint str_ltb (a b : pystr) : bool :=
  match a, b with
  | [], [] => false
  | [], _ :: _ => true
  | _ :: _, [] => false
  | c :: a', d :: b' =>
      if Nat.ltb (nat_of_ascii c) (nat_of_ascii d) then true
      else if Nat.eqb (nat_of_ascii c) (nat_of_ascii d) then str_ltb a' b'
      else false
  end.

Definition group_key := (pystr * pystr)%type.

Definition gkey_eqb (k k' : group_key) : bool :=
  key_eqb (fst k) (fst k') && key_eqb (snd k) (snd k').

Definition gkey_ltb (k k' : group_key) : bool :=
  str_ltb (fst k) (fst k') || (key_eqb (fst k) (fst k') && str_ltb (snd k) (snd k')).

Fixpoint insert_key (k : group_key) (l : list group_key) : list group_key :=
  match l with
  | [] => [k]
  | k' :: l' => if gkey_ltb k' k then k' :: insert_key k l' else k :: l
  end.

(** The keys of [df.groupby(['user_name', 'month'])]: rows whose
    [user_name] is missing belong to no group; the groups come out in key
    order. *)
Definition group_keys (df : list frame_row) : list group_key :=
  let ks := flat_map (fun r => match user_name r with
                               | Some u => [(u, month r)]
                               | None => [] end) df in
  let uniq := fold_left (fun acc k => if existsb (gkey_eqb k) acc then acc else acc ++ [k])
                ks [] in
  fold_left (fun acc k => insert_key k acc) uniq [].

(** The non-missing values of a column in one group. *)
Definition group_values (col : frame_row -> num) (k : group_key) (df : list frame_row)
    : list Q :=
  flat_map (fun r => match user_name r, col r with
                     | Some u, Fin q => if gkey_eqb k (u, month r) then [q] else []
                     | _, _ => [] end) df.

Definition Qsum (l : list Q) : Q := fold_right Qplus 0%Q l.

(** [.mean()] and [.sum()] of a group: missing values are skipped; the
    mean of no value is [NaN], the sum is [0]. *)
Definition pd_mean (l : list Q) : num :=
  match l with [] => NaN | _ => Fin (Qsum l / inject_Z (Z.of_nat (List.length l))) end.

Definition pd_sum (l : list Q) : num := Fin (Qsum l).

Definition groupby_agg (stat : list Q -> num) (col : frame_row -> num)
    (df : list frame_row) : list (group_key * num) :=
  map (fun k => (k, stat (group_values col k df))) (group_keys df).

(** The first lines of [calculate_average_time(df)]:
<<
df['worklog_start'] = pd.to_datetime(df['worklog_start'], errors='coerce', utc=True)
df['worklog_start'] = df['worklog_start'].dt.tz_convert(None)
df['month'] = df['worklog_start'].dt.to_period('M').astype(str)
>>
    The format is inferred once for the column. [cell fmt v] is the month
    string that a value [v] gets under the format [fmt] (["NaT"] when it
    does not parse). *)
Definition with_months (guess : pystr -> option pystr) (cell : option pystr -> json -> pystr)
    (df : list frame_row) : list frame_row :=
  let fmt := infer_format guess (map worklog_start df) in
  map (fun r => mkfr (user_name r) (worklog_start r) (cell fmt (worklog_start r))
                     (time_spent_seconds r) (time_spent_hours r)) df.

(** The rest of [calculate_average_time(df)]: the table it returns, and
    the frame [df] as the caller sees it afterwards ([df] is modified in
    place). The second [pd.to_numeric] leaves the numeric column as it
    is. *)
Definition average_after_months (df : list frame_row)
    : list (group_key * num * num) * list frame_row :=
  let df := map (fun r => mkfr (user_name r) (worklog_start r) (month r)
                               (replace_inf (time_spent_seconds r))
                               (replace_inf (time_spent_hours r))) df in
  let df := filter (fun r => is_fin (time_spent_seconds r)) df in
  let avg := groupby_agg pd_mean time_spent_seconds df in
  (map (fun kv => (fst kv, snd kv, div3600 (snd kv))) avg, df).

Definition calculate_average_time (guess : pystr -> option pystr)
    (cell : option pystr -> json -> pystr) (df : list frame_row)
    : list (group_key * num * num) * list frame_row :=
  average_after_months (with_months guess cell df).

(** The table of [plot_total_time_spent_per_tester(df)]:
    [df.groupby(['user_name', 'month'])['time_spent_hours'].sum()]. *)
Definition total_time_spent_per_tester (df : list frame_row) : list (group_key * num) :=
  groupby_agg pd_sum time_spent_hours df.

(** The two per-(user, month) tables [main] computes from the loaded
    records: the mean of [calculate_average_time] and the sum of
    [plot_total_time_spent_per_tester], which reads the frame that
    [calculate_average_time] has modified. *)
Definition monthly_tables (to_numeric : json -> num) (round32 : Q -> num)
    (guess : pystr -> option pystr) (cell : option pystr -> json -> pystr)
    (records : list raw_row) : list (group_key * num * num) * list (group_key * num) :=
  let df := main_frame to_numeric round32 records in
  let (avg_time_per_issue, df) := calculate_average_time guess cell df in
  (avg_time_per_issue, total_time_spent_per_tester df).

(** The two tables computed from a frame that already has its month
    column. *)
Definition tables_of_frame (df : list frame_row)
    : list (group_key * num * num) * list (group_key * num) :=
  let (avg_time_per_issue, df) := average_after_months df in
  (avg_time_per_issue, total_time_spent_per_tester df).

(** The frame without its row [n]. *)
Definition drop_row {A} (n : nat) (l : list A) : list A := firstn n l ++ skipn (S n) l.

End JiraPlot.

(* ================================================================= *)
(** ** [plot_cumulative_effort_over_time] (sonarqube_plot.py) *)

(** [key in v]: dict keys, substrings of a str, items of a list; other
    values raise [TypeError]. *)
Definition py_contains (key : pystr) (v : json) : option bool :=
  match v with
  | JObj kvs => Some (existsb (key_eqb key) (dict_keys kvs))
  | JStr s => Some (py_in key s)
  | JArr l => Some (existsb (fun x => match x with JStr s => key_eqb key s | _ => false end) l)
  | _ => None
  end.

(** [v[key]] with a str key: only a dict has it ([KeyError] or
    [TypeError] otherwise). *)
Definition getitem (v : json) (key : pystr) : option json :=
  match v with JObj kvs => lookup key kvs | _ => None end.

Fixpoint mapM {A B} (f : A -> option B) (l : list A) : option (list B) :=
  match l with
  | [] => Some []
  | x :: l' => match f x, mapM f l' with
               | Some y, Some ys => Some (y :: ys)
               | _, _ => None
               end
  end.

Fixpoint filterM {A} (p : A -> option bool) (l : list A) : option (list A) :=
  match l with
  | [] => Some []
  | x :: l' => match p x, filterM p l' with
               | Some b, Some ys => Some (if b then x :: ys else ys)
               | _, _ => None
               end
  end.

(** [if 'creationDate' in issue and 'effort' in issue] ([and] does not
    evaluate its right side when the left one is false). *)
Definition has_date_and_effort (issue : json) : option bool :=
  match py_contains (S_ "creationDate") issue with
  | Some true => py_contains (S_ "effort") issue
  | r => r
  end.

(** [parse_date(issue, 'creationDate')]; [strptime] is
    [datetime.strptime(_, "%Y-%m-%dT%H:%M:%S%z")] on a str, as an instant
    in seconds. *)
Definition parse_date (strptime : pystr -> option Z) (entry : json) (field : pystr)
    : option Z :=
  match getitem entry field with
  | Some (JStr s) => strptime s
  | _ => None
  end.

(** [convert_effort_to_minutes(issue['effort'])]: a str is needed for
    [.replace]. *)
Definition issue_effort (issue : json) : option Z :=
  match getitem issue (S_ "effort") with
  | Some (JStr s) => Some (convert_effort_to_minutes s)
  | _ => None
  end.

Definition dates_of (strptime : pystr -> option Z) (issues : list json) : option (list Z) :=
  sel <- filterM has_date_and_effort issues ;;
  mapM (fun issue => parse_date strptime issue (S_ "creationDate")) sel.

Definition efforts_of (issues : list json) : option (list Z) :=
  sel <- filterM has_date_and_effort issues ;;
  mapM issue_effort sel.

(** The int64 range, and a value wrapped into it as NumPy's int64
    addition does on overflow. *)
Definition fits_int64 (z : Z) : bool := (- 2 ^ 63 <=? z) && (z <? 2 ^ 63).

Definition wrap64 (z : Z) : Z := (z + 2 ^ 63) mod 2 ^ 64 - 2 ^ 63.

(** [np.cumsum] on an int64 array: every running sum wraps. *)
Fixpoint cumsum_from (acc : Z) (l : list Z) : list Z :=
  match l with
  | [] => []
  | x :: l' => let s := wrap64 (acc + x) in s :: cumsum_from s l'
  end.

Definition cumsum (l : list Z) : list Z := cumsum_from 0 l.

(** The series plotted for one project:
<<
dates_sorted_indices = np.argsort(dates)
dates = np.array(dates)[dates_sorted_indices]
cumulative_efforts = np.cumsum(np.array(efforts)[dates_sorted_indices])
>>
    [argsort] is [np.argsort] with its default kind, whose order among
    equal dates NumPy leaves open; it returns indices below the length, so
    the default of [nth] is never read. [np.array(efforts)] is an int64
    array when every effort fits int64 (NumPy on a 64-bit Linux); with a
    larger effort NumPy picks another dtype (uint64, float64 or object,
    by the values), whose running sum [cumsum_wide] is not modelled
    here. *)
Definition cumulative_effort (strptime : pystr -> option Z) (argsort : list Z -> list nat)
    (cumsum_wide : list Z -> list Z) (issues : list json) : option (list Z * list Z) :=
  dates <- dates_of strptime issues ;;
  efforts <- efforts_of issues ;;
  let idx := argsort dates in
  let sorted_efforts := map (fun i => nth i efforts 0) idx in
  Some (map (fun i => nth i dates 0) idx,
        if forallb fits_int64 efforts then cumsum sorted_efforts
        else cumsum_wide sorted_efforts).

(** What [np.argsort] guarantees, whatever its kind: a permutation of
    the indices that orders the values. *)
Definition argsort_sorts (argsort : list Z -> list nat) : Prop :=
  forall l, Permutation (argsort l) (seq 0 (List.length l)) /\
            Sorted Z.le (map (fun i => nth i l 0) (argsort l)).

(** One admissible [np.argsort]: a stable insertion sort of the indices. *)
Fixpoint insert_idx (key : nat -> Z) (i : nat) (l : list nat) : list nat :=
  match l with
  | [] => [i]
  | j :: l' => if key j <=? key i then j :: insert_idx key i l' else i :: l
  end.

Definition argsort_stable (ds : list Z) : list nat :=
  fold_left (fun acc i => insert_idx (fun j => nth j ds 0) i acc) (seq 0 (List.length ds)) [].

(** One instance of [strptime] with ["%Y-%m-%dT%H:%M:%S%z"], on the
    fixed-width form SonarQube writes ([2024-01-31T09:05:00+0100]); the
    one-digit fields and other offset spellings [strptime] also takes are
    left out. The instant counts seconds from 1970-01-01 UTC. *)
Definition digits_value (s : pystr) : option Z :=
  if forallb is_digit s
  then Some (fold_left (fun acc c => acc * 10 + digit_value c) s 0)
  else None.

Definition days_from_civil (y m d : Z) : Z :=
  let y' := if m <=? 2 then y - 1 else y in
  let era := y' / 400 in
  let yoe := y' - era * 400 in
  let doy := (153 * (if 2 <? m then m - 3 else m + 9) + 2) / 5 + d - 1 in
  let doe := yoe * 365 + yoe / 4 - yoe / 100 + doy in
  era * 146097 + doe - 719468.

Definition iso_instant (s : pystr) : option Z :=
  match s with
  | [y1; y2; y3; y4; c1; m1; m2; c2; d1; d2; ct; h1; h2; c3; i1; i2; c4; s1; s2;
     sg; o1; o2; o3; o4] =>
      if Ascii.eqb c1 "-" && Ascii.eqb c2 "-" && Ascii.eqb ct "T" &&
         Ascii.eqb c3 ":" && Ascii.eqb c4 ":" &&
         (Ascii.eqb sg "+" || Ascii.eqb sg "-")
      then
        y <- digits_value [y1; y2; y3; y4] ;;
        m <- digits_value [m1; m2] ;;
        d <- digits_value [d1; d2] ;;
        h <- digits_value [h1; h2] ;;
        mi <- digits_value [i1; i2] ;;
        sec <- digits_value [s1; s2] ;;
        oh <- digits_value [o1; o2] ;;
        om <- digits_value [o3; o4] ;;
        if valid_date (mkdate y m d) && (h <=? 23) && (mi <=? 59) && (sec <=? 59) &&
           (oh <=? 23) && (om <=? 59)
        then
          let off := oh * 3600 + om * 60 in
          Some (days_from_civil y m d * 86400 + h * 3600 + mi * 60 + sec
                - (if Ascii.eqb sg "+" then off else - off))
        else None
      else None
  | _ => None
  end.

(* ================================================================= *)
(** ** HTTP responses *)

(** What [requests.get] gives: a transport exception, or a response with
    its status and its body as parsed by [.json()] ([None] when the body
    is not JSON). *)
Inductive response := TransportError | Response (status : Z) (body : option json).

(** [response.raise_for_status()] raises for 4xx and 5xx statuses. *)
Definition http_error (status : Z) : bool := (400 <=? status) && (status <? 600).

(* ================================================================= *)
(** ** [fetch_and_process_issues_for_tester] (jira_fetch.py) *)

Definition dq : pystr := [ascii_of_nat 34].

(** The [jql] parameter; the other parameters ([fields], [maxResults]),
    the headers and the URL are constants. *)
Definition jql_query (email start_date end_date : pystr) : pystr :=
  S_ "assignee=" ++ dq ++ email ++ dq ++ S_ " AND worklogDate >= '" ++ start_date ++
  S_ "' AND worklogDate <= '" ++ end_date ++ S_ "'".

(** What one call leaves behind: a file written by [save_data_to_file]
    (folder, file name, records), nothing, or a logged status. *)
Inductive jira_effect :=
| JSaved (folder filename : pystr) (data : list pydict)
| JNoData
| JLogged (status : Z).

(** [fetch_and_process_issues_for_tester(tester, start_date, end_date)]:
    the queries sent (through [get]) and the effect, [None] when the call
    raises (nothing in it catches an exception). *)
Definition fetch_and_process_issues_for_tester (get : pystr -> response) (t : tester)
    (start_date end_date : pystr) : list pystr * option jira_effect :=
  match generate_email (t_name t) (t_ext t) with
  | None => ([], None)
  | Some email =>
      let jql := jql_query email start_date end_date in
      ([jql],
       match get jql with
       | TransportError => None
       | Response status body =>
           if status =? 200 then
             match body with
             | None => None
             | Some search_results =>
                 match extract_relevant_info search_results with
                 | None => None
                 | Some [] => Some JNoData
                 | Some extracted_info =>
                     Some (JSaved (S_ "data/" ++ end_date)
                             (S_ "data_" ++ t_trigram t ++ S_ "-" ++ end_date ++ S_ ".json")
                             extracted_info)
                 end
             end
           else Some (JLogged status)
       end)
  end.

(** Whether a call of the loop of [fetch_data_for_period] returns:
    [strftime] is [.strftime('%Y-%m-%d')] on the window's dates. *)
Definition call_returns (get : pystr -> response) (strftime : date -> pystr) (c : call)
    : bool :=
  let '(t, start_date, end_date) := c in
  match snd (fetch_and_process_issues_for_tester get t (strftime start_date)
               (strftime end_date)) with
  | Some _ => true
  | None => false
  end.

(* ================================================================= *)
(** ** sonarqube_fetch.py *)

Module SonarFetch.

(** [s.split(sep)] with a one-character separator. *)
Fixpoint split_sep_aux (sep : ascii) (cur : pystr) (s : pystr) : list pystr :=
  match s with
  | [] => [rev cur]
  | c :: s' => if Ascii.eqb c sep then rev cur :: split_sep_aux sep [] s'
               else split_sep_aux sep (c :: cur) s'
  end.

Definition split_sep (sep : ascii) (s : pystr) : list pystr := split_sep_aux sep [] s.

Definition metrics : pystr := S_ "coverage,bugs,vulnerabilities,code_smells,ncloc,sqale_index".

(** A request to [SONARQUBE_URL + endpoint] with [params]:
    [response.raise_for_status(); response.json()]. Both raise a
    [RequestException] (the JSON decoding error of requests is one), so
    [None] here is the [except] branch. *)
Definition request_json (get : pystr -> list (pystr * pystr) -> response)
    (endpoint : pystr) (params : list (pystr * pystr)) : option json :=
  match get endpoint params with
  | TransportError => None
  | Response status body => if http_error status then None else body
  end.

(** The returned value: [JNull] is Python's [None] (a JSON [null] body is
    the same value). *)
Definition fetch_metrics_for_project get (project_key : pystr) : json :=
  match request_json get (S_ "/api/measures/component")
          [(S_ "component", project_key); (S_ "metricKeys", metrics)] with
  | Some j => j
  | None => JNull
  end.

Fixpoint history_loop get (start_date project_key : pystr) (ms : list pystr)
    (history : pydict) : option pydict :=
  match ms with
  | [] => Some history
  | metric :: rest =>
      match request_json get (S_ "/api/measures/search_history")
              [(S_ "component", project_key); (S_ "metrics", metric); (S_ "from", start_date)] with
      | None => history_loop get start_date project_key rest history
      | Some j =>
          (* [.get] on a body that is not a dict: [AttributeError], not caught *)
          match dict_get j (S_ "measures") (JArr []) with
          | None => None
          | Some v => history_loop get start_date project_key rest (dict_set history metric v)
          end
      end
  end.

(** [fetch_metrics_history(project_key)]; [None] when it raises. *)
Definition fetch_metrics_history get (start_date project_key : pystr) : option json :=
  match history_loop get start_date project_key (split_sep ","%char metrics) [] with
  | None => None
  | Some h => Some (JObj [(S_ "project", JStr project_key); (S_ "metrics_history", JObj h)])
  end.

Definition fetch_issues_detailed get (start_date project_key : pystr) : json :=
  match request_json get (S_ "/api/issues/search")
          [(S_ "componentKeys", project_key); (S_ "createdAfter", start_date);
           (S_ "statuses", S_ "OPEN,CONFIRMED,REOPENED"); (S_ "additionalFields", S_ "_all")] with
  | Some j => j
  | None => JNull
  end.

(** A file written by [save_json] (its name without [.json]), or a logged
    failure for that name. *)
Inductive sonar_event := SSaved (filename : pystr) (data : json) | SFailed (filename : pystr).

Definition save_or_log (project_key func : pystr) (data : json) : sonar_event :=
  if truthy data then SSaved (project_key ++ S_ "_" ++ func) data
  else SFailed (project_key ++ S_ "_" ++ func).

(** [fetch_and_save_project_data(project_key)]: the events in order, and
    whether the call ended by an exception. *)
Definition fetch_and_save_project_data get (start_date project_key : pystr)
    : list sonar_event * bool :=
  let e1 := save_or_log project_key (S_ "fetch_metrics_for_project")
              (fetch_metrics_for_project get project_key) in
  match fetch_metrics_history get start_date project_key with
  | None => ([e1], true)
  | Some h =>
      let e2 := save_or_log project_key (S_ "fetch_metrics_history") h in
      let e3 := save_or_log project_key (S_ "fetch_issues_detailed")
                  (fetch_issues_detailed get start_date project_key) in
      ([e1; e2; e3], false)
  end.

End SonarFetch.

(* ================================================================= *)
(** ** The effort list of [plot_issues_effort] (sonarqube_plot.py) *)

(** [issues_detailed = load_json(...)], with [JNull] for Python's [None]
    (a missing file, or a file holding [null]); [None] when the body
    raises, [Some None] when the project is skipped ([continue]),
    otherwise the values given to the histogram:
<<
if issues_detailed is None or 'issues' not in issues_detailed: continue
efforts = [convert_effort_to_minutes(issue['effort'])
           for issue in issues_detailed['issues'] if 'effort' in issue]
>> *)
Definition issues_effort_values (issues_detailed : json) : option (option (list Z)) :=
  match issues_detailed with
  | JNull => Some None
  | d =>
      match py_contains (S_ "issues") d with
      | None => None
      | Some false => Some None
      | Some true =>
          issues_v <- getitem d (S_ "issues") ;;
          issues <- py_iter issues_v ;;
          sel <- filterM (py_contains (S_ "effort")) issues ;;
          option_map Some (mapM issue_effort sel)
      end
  end.

(** The work-log list that [extract_relevant_info] reads from an issue. *)
Definition worklogs_of (issue : json) : option (list json) :=
  fields <- dict_get issue (S_ "fields") (JObj []) ;;
  worklog <- dict_get fields (S_ "worklog") (JObj []) ;;
  worklogs <- dict_get worklog (S_ "worklogs") (JArr []) ;;
  py_iter worklogs.

(* ================================================================= *)
(** ** Properties stated by the specification (helpers) *)

(** The string contains a minus sign. *)
Definition has_minus (s : pystr) : bool := existsb (Ascii.eqb "-"%char) s.

(** An issue whose ["effort"] value, if it is a str, has no minus sign. *)
Definition effort_has_no_minus (issue : json) : bool :=
  match getitem issue (S_ "effort") with
  | Some (JStr s) => negb (has_minus s)
  | _ => true
  end.

(** Whitespace only; no whitespace at all. *)
Definition all_space (s : pystr) : bool := forallb is_space s.
Definition no_space (s : pystr) : bool := forallb (fun c => negb (is_space c)) s.

(** The sum of a list of efforts. *)
Definition zsum (l : list Z) : Z := fold_right Z.add 0 l.

Definition is_dict (v : json) : bool :=
  match v with JObj _ => true | _ => false end.

(* ================================================================= *)
(** ** Concrete inputs *)

Module Inputs.
Local Open Scope string_scope.

Definition obj (kvs : list (string * json)) : json :=
  JObj (map (fun kv => (S_ (fst kv), snd kv)) kvs).

(** Issue [A] with one work-log, then issue [B] with an estimate and no
    work-log. *)
Definition payload_leak : json :=
  obj [("issues", JArr [
         obj [("key", JStr (S_ "A"));
              ("fields", obj [("worklog", obj [("worklogs", JArr [
                   obj [("id", JNum 1); ("timeSpentSeconds", JNum 60)]])])])];
         obj [("key", JStr (S_ "B"));
              ("fields", obj [("timetracking",
                   obj [("originalEstimateSeconds", JNum 7200)])])]])].

(** A single issue with an estimate and no work-log. *)
Definition payload_no_worklog : json :=
  obj [("issues", JArr [
         obj [("key", JStr (S_ "B"));
              ("fields", obj [("timetracking",
                   obj [("originalEstimateSeconds", JNum 3600)])])]])].

(** One issue, two work-logs (the second without author), an estimate
    block; the parts are named for the hypotheses of the claim. *)
Definition kv (kvs : list (string * json)) : list (pystr * json) :=
  map (fun p => (S_ (fst p), snd p)) kvs.

Definition tw_w1 := kv [("author", obj [("displayName", JStr (S_ "Ann"))]);
                        ("id", JNum 1); ("timeSpentSeconds", JNum 600)].
Definition tw_w2 := kv [("id", JNum 2); ("timeSpentSeconds", JNum 1200)].
Definition tw_tt := kv [("originalEstimateSeconds", JNum 3600);
                        ("remainingEstimateSeconds", JNum 1800);
                        ("timeSpentSeconds", JNum 1800)].
Definition tw_wkv := kv [("worklogs", JArr [JObj tw_w1; JObj tw_w2])].
Definition tw_fkv := kv [("worklog", JObj tw_wkv); ("timetracking", JObj tw_tt)].
Definition tw_ikv := kv [("key", JStr (S_ "K-1")); ("id", JStr (S_ "10"));
                         ("fields", JObj tw_fkv)].
Definition tw_pkv := kv [("issues", JArr [JObj tw_ikv])].

(** Two SonarQube issues, one month apart: an effort of one hour, then
    one of minus one hour. *)
Definition issues_negative : list json :=
  [obj [("creationDate", JStr (S_ "2024-01-10T09:00:00+0100")); ("effort", JStr (S_ "1h"))];
   obj [("creationDate", JStr (S_ "2024-02-10T09:00:00+0100")); ("effort", JStr (S_ "-1h"))]].

(** Two issues of [100000000000000000h] each: both efforts fit int64,
    their sum does not. *)
Definition issues_overflow : list json :=
  [obj [("creationDate", JStr (S_ "2024-01-10T09:00:00+0100"));
        ("effort", JStr (S_ "100000000000000000h"))];
   obj [("creationDate", JStr (S_ "2024-02-10T09:00:00+0100"));
        ("effort", JStr (S_ "100000000000000000h"))]].

(** Two issues created at the same instant, in both input orders. *)
Definition issue_tied_1h : json :=
  obj [("creationDate", JStr (S_ "2024-01-10T09:00:00+0100")); ("effort", JStr (S_ "1h"))].

Definition issue_tied_2h : json :=
  obj [("creationDate", JStr (S_ "2024-01-10T09:00:00+0100")); ("effort", JStr (S_ "2h"))].

(** The running sums of an object array of Python ints (no wrap). *)
Fixpoint cumsum_object_from (acc : Z) (l : list Z) : list Z :=
  match l with
  | [] => []
  | x :: l' => (acc + x)%Z :: cumsum_object_from (acc + x)%Z l'
  end.

Definition cumsum_object (l : list Z) : list Z := cumsum_object_from 0 l.

(** Three issues given out of date order. *)
Definition issues_unordered : list json :=
  [obj [("creationDate", JStr (S_ "2024-03-01T00:00:00+0000")); ("effort", JStr (S_ "2h"))];
   obj [("creationDate", JStr (S_ "2024-01-01T00:00:00+0000")); ("effort", JStr (S_ "1h"))];
   obj [("key", JStr (S_ "no-effort"))];
   obj [("creationDate", JStr (S_ "2024-02-01T00:00:00+0000")); ("effort", JStr (S_ "3h"))]].

(** [pd.to_numeric(errors='coerce')] on the cells used below. *)
Definition to_numeric_ex (v : json) : JiraPlot.num :=
  match v with
  | JNum z => JiraPlot.Fin (inject_Z z)
  | JStr s => if key_eqb s (S_ "Infinity") then JiraPlot.PInf else JiraPlot.NaN
  | _ => JiraPlot.NaN
  end.

(** [np.float32] rounding on integer values (24 significant bits, ties to
    even); the other values used below are left exact. *)
Definition round_int24 (z : Z) : Z :=
  let a := Z.abs z in
  if Z.ltb a (2 ^ 24) then z
  else
    let e := Z.log2 a - 23 in
    let m := a / 2 ^ e in
    let r := a mod 2 ^ e in
    let half := 2 ^ (e - 1) in
    let m' := if Z.ltb half r then m + 1
              else if Z.eqb r half then (if Z.even m then m else m + 1) else m in
    Z.sgn z * (m' * 2 ^ e).

Definition round32_ex (q : Q) : JiraPlot.num :=
  if Z.eqb (Zpos (Qden q)) 1 then JiraPlot.Fin (inject_Z (round_int24 (Qnum q)))
  else JiraPlot.Fin q.

(** [guess_datetime_format] on the two shapes of dates used below, and the
    month each value gets under a format: a value of the other shape does
    not parse and is [NaT]. *)
Definition guess_ex (s : pystr) : option pystr :=
  if Nat.eqb (List.length s) 10 then Some (S_ "%Y-%m-%d")
  else if Nat.eqb (List.length s) 28 then Some (S_ "%Y-%m-%dT%H:%M:%S.%f%z")
  else None.

Definition cell_ex (fmt : option pystr) (v : json) : pystr :=
  match v with
  | JStr s =>
      let ok := match fmt with
                | Some f => Nat.eqb (List.length s)
                              (if key_eqb f (S_ "%Y-%m-%d") then 10 else 28)
                | None => true
                end in
      if ok then firstn 7 s else S_ "NaT"
  | _ => S_ "NaT"
  end.

Definition rec_a1 := JiraPlot.mkraw (Some (S_ "Ann")) (JStr (S_ "2024-01-05")) (JNum 3600).
Definition rec_a2 := JiraPlot.mkraw (Some (S_ "Ann")) (JStr (S_ "2024-01-09")) (JNum 7200).
Definition rec_nan := JiraPlot.mkraw (Some (S_ "Ann")) (JStr (S_ "2024-01-07")) (JStr (S_ "NaN")).
Definition rec_full := JiraPlot.mkraw (Some (S_ "Ann"))
  (JStr (S_ "2024-01-05T09:00:00.000+0000")) (JNum 3600).

Definition tester_ex := mktester (S_ "Jean Dupont") true (S_ "JDU").

(** A work-log whose author has no [displayName]. *)
Definition rec_none := JiraPlot.mkraw None (JStr (S_ "2024-01-06")) (JNum 1800).


(** A SonarQube server that cannot be reached, and one that answers 503
    to every request. *)
Definition sonar_unreachable (endpoint : pystr) (params : list (pystr * pystr)) : response :=
  TransportError.
Definition sonar_503 (endpoint : pystr) (params : list (pystr * pystr)) : response :=
  Response 503 None.

(** A Jira server that answers 401 to every search. *)
(** A SonarQube server that answers the history of [coverage] with a
    dict, fails the other history requests with 503, and answers the other
    endpoints with an empty dict. *)
Definition coverage_measure : json :=
  obj [("metric", JStr (S_ "coverage"));
       ("history", JArr [obj [("value", JStr (S_ "81.5"))]])].

Definition coverage_history : json := obj [("measures", JArr [coverage_measure])].

Definition sonar_partial (endpoint : pystr) (params : list (pystr * pystr)) : response :=
  if key_eqb endpoint (S_ "/api/measures/search_history") then
    if existsb (fun kv => key_eqb (snd kv) (S_ "coverage")) params
    then Response 200 (Some coverage_history)
    else Response 503 None
  else Response 200 (Some (JObj [])).

Definition jira_401 (jql : pystr) : response := Response 401 None.

(** [.strftime('%Y-%m-%d')] on dates of four-digit years. *)
Fixpoint pad_digits (width : nat) (z : Z) : pystr :=
  match width with
  | O => []
  | S w => (pad_digits w (z / 10) ++ [ascii_of_nat (48 + Z.to_nat (z mod 10))])%list
  end.

Definition strftime_ex (d : date) : pystr :=
  (pad_digits 4 (year d) ++ S_ "-" ++ pad_digits 2 (month d) ++ S_ "-" ++
   pad_digits 2 (day d))%list.

(** A saved [fetch_issues_detailed] body. *)
Definition issues_payload : json := JObj [(S_ "issues", JArr issues_unordered)].

End Inputs.

(* ================================================================= *)
(** ** Strings: where the characters of a result come from *)

Module StrFacts.

Lemma strip_prefix_in : forall p s r c,
  strip_prefix p s = Some r -> In c r -> In c s.
Proof.
  induction p as [|a p IH]; intros s r c H Hin; simpl in H.
  - inversion H; subst; assumption.
  - destruct s as [|d s]; [discriminate|].
    destruct (Ascii.eqb a d); [|discriminate].
    right; eapply IH; eassumption.
Qed.

Lemma replace_fuel_in : forall n old new s c,
  In c (replace_fuel n old new s) -> In c s \/ In c new.
Proof.
  induction n as [|n IH]; intros old new s c H; simpl in H; [left; exact H|].
  destruct s as [|a s]; [contradiction|].
  destruct (strip_prefix old (a :: s)) as [rest|] eqn:E.
  - apply in_app_or in H as [H|H]; [right; exact H|].
    destruct (IH _ _ _ _ H) as [H'|H']; [left|right; exact H'].
    eapply strip_prefix_in; eassumption.
  - destruct H as [<-|H]; [left; left; reflexivity|].
    destruct (IH _ _ _ _ H) as [H'|H']; [left; right; exact H'|right; exact H'].
Qed.

Lemma replace_in : forall old new s c,
  In c (replace old new s) -> In c s \/ In c new.
Proof. intros; eapply replace_fuel_in; eassumption. Qed.

Lemma split_aux_in : forall s cur t c,
  In t (split_aux cur s) -> In c t -> In c cur \/ In c s.
Proof.
  induction s as [|a s IH]; intros cur t c Ht Hc; simpl in Ht.
  - destruct cur; simpl in Ht; [contradiction|].
    destruct Ht as [<-|[]]; left; apply in_rev; exact Hc.
  - destruct (is_space a).
    + destruct cur as [|b cur].
      * destruct (IH _ _ _ Ht Hc) as [[]|H]; right; right; exact H.
      * destruct Ht as [<-|Ht].
        -- left; apply in_rev; exact Hc.
        -- destruct (IH _ _ _ Ht Hc) as [[]|H]; right; right; exact H.
    + destruct (IH _ _ _ Ht Hc) as [[<-|H]|H].
      * right; left; reflexivity.
      * left; exact H.
      * right; right; exact H.
Qed.

Lemma split_in : forall s t c, In t (split s) -> In c t -> In c s.
Proof.
  intros s t c Ht Hc; destruct (split_aux_in _ _ _ _ Ht Hc) as [[]|H]; exact H.
Qed.

Lemma drop_spaces_in : forall s c, In c (drop_spaces s) -> In c s.
Proof.
  induction s as [|a s IH]; intros c H; simpl in H; [contradiction|].
  destruct (is_space a); [right; apply IH; exact H|exact H].
Qed.

Lemma strip_in : forall s c, In c (strip s) -> In c s.
Proof.
  unfold strip; intros s c H.
  apply in_rev, drop_spaces_in, in_rev, drop_spaces_in in H; exact H.
Qed.

Lemma has_minus_false : forall s, has_minus s = false -> ~ In "-"%char s.
Proof.
  intros s H Hin; unfold has_minus in H.
  assert (existsb (Ascii.eqb "-"%char) s = true) as H'
    by (apply existsb_exists; exists "-"%char; split; [exact Hin|reflexivity]).
  congruence.
Qed.

End StrFacts.

(* ================================================================= *)
(** ** [int()] and [convert_effort_to_minutes]: signs *)

Module EffortFacts.
Import StrFacts.

Lemma digit_value_nonneg : forall c, is_digit c = true -> 0 <= digit_value c.
Proof.
  unfold is_digit, digit_value; intros c H.
  apply andb_true_iff in H as [H _]; apply Z.leb_le in H; lia.
Qed.

Lemma digits_aux_nonneg : forall n s acc v,
  (List.length s < n)%nat -> 0 <= acc -> digits_aux acc s = Some v -> 0 <= v.
Proof.
  induction n as [|n IH]; intros s acc v Hlen Hacc H; [lia|].
  destruct s as [|c s]; simpl in H.
  - inversion H; subst; assumption.
  - destruct (is_digit c) eqn:Ec.
    + apply (IH s (acc * 10 + digit_value c) v); [simpl in Hlen; lia| |exact H].
      pose proof (digit_value_nonneg c Ec); lia.
    + destruct (Ascii.eqb c "_"%char); [|discriminate].
      destruct s as [|d s]; [discriminate|].
      destruct (is_digit d) eqn:Ed; [|discriminate].
      apply (IH s (acc * 10 + digit_value d) v); [simpl in Hlen; lia| |exact H].
      pose proof (digit_value_nonneg d Ed); lia.
Qed.

Lemma py_digits_nonneg : forall s v, py_digits s = Some v -> 0 <= v.
Proof.
  intros [|c s] v H; simpl in H; [discriminate|].
  destruct (is_digit c) eqn:Ec; [|discriminate].
  eapply digits_aux_nonneg; [apply Nat.lt_succ_diag_r| |exact H].
  apply digit_value_nonneg; exact Ec.
Qed.

(** Without a minus sign, [int()] returns no negative number. *)
Lemma py_int_nonneg : forall s v,
  ~ In "-"%char s -> py_int s = Some v -> 0 <= v.
Proof.
  unfold py_int; intros s v Hs H.
  destruct (strip s) as [|c s'] eqn:E; [discriminate|].
  destruct (Ascii.eqb c "+"%char); [eapply py_digits_nonneg; exact H|].
  destruct (Ascii.eqb c "-"%char) eqn:Em.
  - apply Ascii.eqb_eq in Em; subst c.
    exfalso; apply Hs, strip_in; rewrite E; left; reflexivity.
  - eapply py_digits_nonneg; exact H.
Qed.

Lemma no_minus_lit : forall s, has_minus (S_ s) = false -> ~ In "-"%char (S_ s).
Proof. intros s H; apply has_minus_false; exact H. Qed.

Lemma replace_no_minus : forall old new s,
  ~ In "-"%char s -> ~ In "-"%char new -> ~ In "-"%char (replace old new s).
Proof.
  intros old new s Hs Hn H; destruct (replace_in _ _ _ _ H); contradiction.
Qed.

Lemma effort_step_nonneg : forall tot part,
  0 <= tot -> ~ In "-"%char part -> 0 <= effort_step tot part.
Proof.
  unfold effort_step; intros tot part Htot Hp.
  destruct (py_in (S_ "h") part).
  - destruct (py_int (replace (S_ "h") [] part)) as [h|] eqn:E; [|exact Htot].
    assert (0 <= h); [|lia].
    eapply py_int_nonneg; [|exact E].
    apply replace_no_minus; [exact Hp|intros []].
  - destruct (py_in (S_ "min") part); [|exact Htot].
    destruct (py_int (replace (S_ "min") [] part)) as [m|] eqn:E; [|exact Htot].
    assert (0 <= m); [|lia].
    eapply py_int_nonneg; [|exact E].
    apply replace_no_minus; [exact Hp|intros []].
Qed.

Lemma fold_effort_nonneg : forall parts tot,
  0 <= tot -> (forall p, In p parts -> ~ In "-"%char p) ->
  0 <= fold_left effort_step parts tot.
Proof.
  induction parts as [|p parts IH]; intros tot Htot Hp; simpl; [exact Htot|].
  apply IH; [apply effort_step_nonneg; [exact Htot|apply Hp; left; reflexivity]|].
  intros q Hq; apply Hp; right; exact Hq.
Qed.

(** Shared by the claims on the parser and on the cumulative sum. *)
Lemma convert_nonneg : forall s,
  has_minus s = false -> 0 <= convert_effort_to_minutes s.
Proof.
  intros s Hs; apply has_minus_false in Hs.
  unfold convert_effort_to_minutes.
  apply fold_effort_nonneg; [lia|].
  intros p Hp Hin.
  pose proof (split_in _ _ _ Hp Hin) as H.
  revert H.
  repeat (apply replace_no_minus; [|apply no_minus_lit; reflexivity]).
  exact Hs.
Qed.

End EffortFacts.

(* ================================================================= *)
(** ** [str.split()] on two words *)

Module SplitFacts.

Lemma split_aux_spaces : forall sp l,
  all_space sp = true -> split_aux [] (sp ++ l) = split_aux [] l.
Proof.
  induction sp as [|c sp IH]; intros l H; [reflexivity|].
  simpl in H; apply andb_true_iff in H as [Hc H].
  simpl; rewrite Hc; apply IH; exact H.
Qed.

Lemma split_aux_word : forall w cur l,
  no_space w = true -> split_aux cur (w ++ l) = split_aux (rev w ++ cur) l.
Proof.
  induction w as [|c w IH]; intros cur l H; [reflexivity|].
  simpl in H; apply andb_true_iff in H as [Hc H].
  apply negb_true_iff in Hc.
  simpl; rewrite Hc, IH by exact H.
  rewrite <- app_assoc; reflexivity.
Qed.

Lemma split_aux_only_spaces : forall sp, all_space sp = true -> split_aux [] sp = [].
Proof.
  intros sp H; rewrite <- (app_nil_r sp), split_aux_spaces by exact H; reflexivity.
Qed.

(** [(lead + first + sep + surname + trail).split() == [first, surname]]
    for non-empty words without whitespace and whitespace [lead], [sep]
    (non-empty) and [trail]. *)
Lemma split_two_words : forall lead first sep surname trail,
  all_space lead = true -> all_space sep = true -> all_space trail = true ->
  no_space first = true -> no_space surname = true ->
  first <> [] -> sep <> [] -> surname <> [] ->
  split (lead ++ first ++ sep ++ surname ++ trail) = [first; surname].
Proof.
  intros lead first sep surname trail Hl Hs Ht Hf Hn Hf0 Hs0 Hn0.
  unfold split.
  rewrite split_aux_spaces, split_aux_word, app_nil_r by assumption.
  destruct sep as [|c sep]; [congruence|].
  simpl in Hs; apply andb_true_iff in Hs as [Hc Hs].
  destruct (rev first) as [|a r] eqn:Er.
  { apply (f_equal (@rev ascii)) in Er; rewrite rev_involutive in Er; simpl in Er; congruence. }
  assert (Ef : rev r ++ [a] = first)
    by (rewrite <- (rev_involutive first), Er; reflexivity).
  simpl; rewrite Hc, Ef.
  rewrite split_aux_spaces, split_aux_word, app_nil_r by assumption.
  destruct trail as [|d trail].
  - simpl; destruct (rev surname) as [|b r'] eqn:Er'.
    + apply (f_equal (@rev ascii)) in Er'; rewrite rev_involutive in Er'; simpl in Er'; congruence.
    + assert (Es : rev r' ++ [b] = surname)
        by (rewrite <- (rev_involutive surname), Er'; reflexivity).
      simpl; rewrite Es; reflexivity.
  - simpl in Ht; apply andb_true_iff in Ht as [Hd Ht].
    simpl; rewrite Hd.
    destruct (rev surname) as [|b r'] eqn:Er'.
    + apply (f_equal (@rev ascii)) in Er'; rewrite rev_involutive in Er'; simpl in Er'; congruence.
    + assert (Es : rev r' ++ [b] = surname)
        by (rewrite <- (rev_involutive surname), Er'; reflexivity).
      simpl; rewrite Es, split_aux_only_spaces by exact Ht; reflexivity.
Qed.

End SplitFacts.

(* ================================================================= *)
(** ** Claims on [convert_effort_to_minutes] and [generate_email] *)

(** C5 (code_bug). The spec's examples evaluated on the parser: ["3h"],
    [""], ["halfh"] and ["garbage"] give what the spec says, but
    [.replace('min', ' min')] cuts ["15min"] into ["15"] and ["min"], so
    ["2h 15min"] gives 120 (not 135), ["90min"] gives 0 (not 90) and
    ["1h 30min"] gives 60 (not 90). *)
Theorem convert_effort_examples :
  convert_effort_to_minutes (S_ "3h") = 180 /\
  convert_effort_to_minutes (S_ "") = 0 /\
  convert_effort_to_minutes (S_ "halfh") = 0 /\
  convert_effort_to_minutes (S_ "garbage") = 0 /\
  convert_effort_to_minutes (S_ "2h 15min") = 120 /\
  convert_effort_to_minutes (S_ "90min") = 0 /\
  convert_effort_to_minutes (S_ "1h 30min") = 60.
Proof. repeat split; reflexivity. Qed.

(** C6 (amended). [convert_effort_to_minutes] returns a non-negative
    number of minutes for every string without a minus sign. *)
Theorem convert_effort_nonneg_no_minus : forall s,
  has_minus s = false -> 0 <= convert_effort_to_minutes s.
Proof. exact EffortFacts.convert_nonneg. Qed.

Lemma convert_effort_nonneg_no_minus_witness :
  has_minus (S_ "2h 15min") = false /\ 0 <= convert_effort_to_minutes (S_ "2h 15min").
Proof.
  split; [reflexivity|].
  apply (convert_effort_nonneg_no_minus (S_ "2h 15min")); reflexivity.
Defined.

(** C6 (counterexample). [int('-1')] is [-1], so ["-1h"] gives [-60]. *)
Lemma convert_effort_negative :
  convert_effort_to_minutes (S_ "-1h") = -60 /\
  ~ (0 <= convert_effort_to_minutes (S_ "-1h")).
Proof. split; [reflexivity|vm_compute; congruence]. Qed.

(** C10. For a name made of two words around whitespace (with whitespace
    allowed before and after), [generate_email] returns the lowered first
    word, a dot, the lowered second word and the domain chosen by [ext];
    for a name whose [split()] does not give exactly two parts it raises. *)
Theorem generate_email_two_parts : forall lead first sep surname trail ext,
  all_space lead = true -> all_space sep = true ->
  all_space trail = true ->
  no_space first = true -> no_space surname = true ->
  first <> [] -> sep <> [] -> surname <> [] ->
  generate_email (lead ++ first ++ sep ++ surname ++ trail) ext =
    Some (lower first ++ S_ "." ++ lower surname ++
          (if ext then S_ "@ext.ubp.ch" else S_ "@ubp.ch")) /\
  (forall name, List.length (split name) <> 2%nat -> generate_email name ext = None).
Proof.
  intros lead first sep surname trail ext Hl Hs Ht Hf Hn Hf0 Hs0 Hn0; split.
  - unfold generate_email; rewrite SplitFacts.split_two_words by assumption; reflexivity.
  - intros name Hlen; unfold generate_email.
    destruct (split name) as [|a [|b [|c l]]]; try reflexivity.
    simpl in Hlen; congruence.
Qed.

Lemma generate_email_two_parts_witness :
  generate_email (S_ "Jean Dupont") true = Some (S_ "jean.dupont@ext.ubp.ch") /\
  generate_email (S_ "Jean") true = None.
Proof.
  pose proof (generate_email_two_parts [] (S_ "Jean") (S_ " ") (S_ "Dupont") [] true
    eq_refl eq_refl eq_refl eq_refl eq_refl ltac:(discriminate) ltac:(discriminate)
    ltac:(discriminate)) as [H1 H2].
  split; [exact H1|].
  apply H2; simpl; discriminate.
Defined.

(* ================================================================= *)
(** ** Claims on the date windows *)

(** C1 (code_bug). With [today = 2024-03-15] and [months_back = 1] the
    loop of [fetch_data_for_period] queries [2024-02-01..2024-03-14] and
    then [2024-03-01..2024-03-15]: the windows overlap on
    [2024-03-01..2024-03-14], and the day after the first end is not the
    second start. The end date is taken from [today] moved by months,
    without the [.replace(day=1)] that the start date has. *)
Theorem windows_overlap_mid_month :
  windows 1 (mkdate 2024 3 15) =
    Some [(mkdate 2024 2 1, mkdate 2024 3 14); (mkdate 2024 3 1, mkdate 2024 3 15)] /\
  next_day (mkdate 2024 3 14) <> mkdate 2024 3 1.
Proof. split; [reflexivity|discriminate]. Qed.

(** C7 (amended). For a negative [months_back], [fetch_data_for_period]
    computes no window, issues no query and returns normally; [main]
    rejects every value below 1 before it calls [fetch_data_for_period]. *)
Theorem fetch_negative_months_no_query : forall returns months_back testers today,
  months_back < 0 ->
  windows months_back today = Some [] /\
  fetch_data_for_period returns months_back testers today = Completed [] /\
  (forall m, m < 1 -> main returns m testers today = MainRejected).
Proof.
  intros returns mb testers today H.
  assert (Hr : range_down mb = []) by (unfold range_down; destruct (Z.ltb_spec mb 0); [reflexivity|lia]).
  unfold windows, fetch_data_for_period; rewrite Hr; split; [reflexivity|split; [reflexivity|]].
  intros m Hm; unfold main; destruct (Z.ltb_spec m 1); [reflexivity|lia].
Qed.

Lemma fetch_negative_months_no_query_witness :
  -1 < 0 /\
  fetch_data_for_period (call_returns Inputs.jira_401 Inputs.strftime_ex) (-1)
    [Inputs.tester_ex] (mkdate 2024 3 15) = Completed [].
Proof.
  split; [lia|].
  apply (fetch_negative_months_no_query (call_returns Inputs.jira_401 Inputs.strftime_ex)
           (-1) [Inputs.tester_ex] (mkdate 2024 3 15)); lia.
Defined.

(** C7 (counterexample). [fetch_data_for_period(-1, testers)] raises
    nothing: the loop over [range(-1, -1, -1)] is empty and the call
    returns normally. *)
Lemma fetch_negative_months_returns :
  windows (-1) (mkdate 2024 3 15) = Some [] /\
  fetch_data_for_period (call_returns Inputs.jira_401 Inputs.strftime_ex) (-1)
    [Inputs.tester_ex] (mkdate 2024 3 15) = Completed [].
Proof. split; reflexivity. Qed.

(* ================================================================= *)
(** ** Claims on [extract_relevant_info] *)

Lemma get_or_some : forall kvs k d v, lookup k kvs = Some v -> get_or kvs k d = v.
Proof. unfold get_or; intros kvs k d v H; rewrite H; reflexivity. Qed.

(** C2. A payload with one issue (a dict) holding two work-logs (dicts
    whose author, when given, is a dict) and a non-empty [timetracking]
    dict gives exactly two records: the first has no estimate keys and the
    [time_spent_seconds] of its work-log, the second carries the three
    [timetracking] values. *)
Theorem extract_two_worklogs_estimate : forall pkv ikv fkv wkv w1 w2 tt,
  lookup (S_ "issues") pkv = Some (JArr [JObj ikv]) ->
  lookup (S_ "fields") ikv = Some (JObj fkv) ->
  lookup (S_ "worklog") fkv = Some (JObj wkv) ->
  lookup (S_ "worklogs") wkv = Some (JArr [JObj w1; JObj w2]) ->
  lookup (S_ "timetracking") fkv = Some (JObj tt) -> tt <> [] ->
  is_dict (get_or w1 (S_ "author") (JObj [])) = true ->
  is_dict (get_or w2 (S_ "author") (JObj [])) = true ->
  exists r1 r2, extract_relevant_info (JObj pkv) = Some [r1; r2] /\
   dict_lookup r1 (S_ "original_estimate_seconds") = None /\
   dict_lookup r1 (S_ "remaining_estimate_seconds") = None /\
   dict_lookup r1 (S_ "time_spent_seconds") = Some (get_or w1 (S_ "timeSpentSeconds") JNull) /\
   dict_lookup r2 (S_ "original_estimate_seconds") =
     Some (get_or tt (S_ "originalEstimateSeconds") JNull) /\
   dict_lookup r2 (S_ "remaining_estimate_seconds") =
     Some (get_or tt (S_ "remainingEstimateSeconds") JNull) /\
   dict_lookup r2 (S_ "time_spent_seconds") = Some (get_or tt (S_ "timeSpentSeconds") JNull).
Proof.
  intros pkv ikv fkv wkv w1 w2 tt H1 H2 H3 H4 H5 H6 A1 A2.
  destruct (get_or w1 (S_ "author") (JObj [])) as [| | | | |a1] eqn:E1; try discriminate.
  destruct (get_or w2 (S_ "author") (JObj [])) as [| | | | |a2] eqn:E2; try discriminate.
  destruct tt as [|t0 tt]; [congruence|].
  unfold extract_relevant_info; cbn [dict_get obind].
  rewrite (get_or_some _ _ _ _ H1); cbn [py_iter issue_loop obind dict_get].
  unfold issue_step; cbn [obind dict_get].
  rewrite (get_or_some _ _ _ _ H2); cbn [obind dict_get].
  rewrite (get_or_some _ _ _ _ H3); cbn [obind dict_get].
  rewrite (get_or_some _ _ _ _ H4); cbn [obind dict_get py_iter worklog_loop].
  rewrite E1, E2; cbn [obind dict_get worklog_loop].
  rewrite (get_or_some _ _ _ _ H5); cbn [obind dict_get truthy].
  do 2 eexists; split; [reflexivity|].
  repeat split; reflexivity.
Qed.

Lemma extract_two_worklogs_estimate_witness :
  exists r1 r2,
    extract_relevant_info (JObj Inputs.tw_pkv) = Some [r1; r2] /\
    dict_lookup r1 (S_ "original_estimate_seconds") = None /\
    dict_lookup r1 (S_ "remaining_estimate_seconds") = None /\
    dict_lookup r1 (S_ "time_spent_seconds") = Some (JNum 600) /\
    dict_lookup r2 (S_ "original_estimate_seconds") = Some (JNum 3600) /\
    dict_lookup r2 (S_ "remaining_estimate_seconds") = Some (JNum 1800) /\
    dict_lookup r2 (S_ "time_spent_seconds") = Some (JNum 1800).
Proof.
  exact (extract_two_worklogs_estimate Inputs.tw_pkv Inputs.tw_ikv Inputs.tw_fkv
           Inputs.tw_wkv Inputs.tw_w1 Inputs.tw_w2 Inputs.tw_tt
           eq_refl eq_refl eq_refl eq_refl eq_refl ltac:(discriminate) eq_refl eq_refl).
Defined.

(** C3 (code_bug). Issue [A] has one work-log; issue [B] has an estimate
    and no work-log. The loop over [B] emits nothing, [info] still names
    the record of [A], and [info.update(...)] writes [B]'s estimate (and a
    [None] time spent) onto [A]'s record. *)
Theorem extract_estimate_leaks_to_previous_issue :
  option_map (map (fun r => (dict_lookup r (S_ "issue_key"),
                             dict_lookup r (S_ "original_estimate_seconds"),
                             dict_lookup r (S_ "time_spent_seconds"))))
    (extract_relevant_info Inputs.payload_leak) =
  Some [(Some (JStr (S_ "A")), Some (JNum 7200), Some JNull)].
Proof. vm_compute; reflexivity. Qed.

(** C4 (code_bug). A payload whose first issue has an estimate and no
    work-log makes [extract_relevant_info] raise: [info] is read before
    any assignment ([UnboundLocalError]). *)
Theorem extract_raises_without_worklog :
  extract_relevant_info Inputs.payload_no_worklog = None.
Proof. vm_compute; reflexivity. Qed.

(* ================================================================= *)
(** ** Claim on the monthly mean and sum *)

Module AggFacts.
Import JiraPlot.

Lemma filter_map_skip : forall {A B} (f : A -> B) (p : B -> bool) l1 l2 r,
  p (f r) = false -> filter p (map f (l1 ++ r :: l2)) = filter p (map f (l1 ++ l2)).
Proof.
  intros A B f p l1 l2 r H.
  rewrite !map_app, !filter_app; simpl; rewrite H; reflexivity.
Qed.

Lemma is_fin_replace_inf : forall v, is_fin (replace_inf v) = is_fin v.
Proof. intros []; reflexivity. Qed.

Lemma fits32_nonfin : forall r32 v, is_fin v = false -> fits32 r32 v = true.
Proof. intros r32 [q| | |] H; [discriminate|reflexivity..]. Qed.

Lemma is_fin_conv : forall r32 col v,
  is_fin v = false -> is_fin (downcast_float r32 col v) = false.
Proof.
  intros r32 col v H; unfold downcast_float.
  destruct (forallb _ _); [destruct v; [discriminate|reflexivity..]|exact H].
Qed.

Lemma drop_row_mid : forall {A} (l1 : list A) x l2,
  drop_row (List.length l1) (l1 ++ x :: l2) = l1 ++ l2.
Proof.
  intros A; induction l1 as [|a l1 IH]; intros x l2; [reflexivity|].
  unfold drop_row in *; simpl; f_equal; apply IH.
Qed.

Lemma drop_row_map : forall {A B} (h : A -> B) l1 x l2,
  drop_row (List.length l1) (map h (l1 ++ x :: l2)) = map h (l1 ++ l2).
Proof.
  intros A B h l1 x l2; rewrite !map_app; simpl.
  rewrite <- (length_map h l1); apply drop_row_mid.
Qed.

Lemma existsb_map : forall {A B} (f : B -> bool) (g : A -> B) l,
  existsb f (map g l) = existsb (fun x => f (g x)) l.
Proof. intros A B f g; induction l as [|x l IH]; simpl; [reflexivity|rewrite IH; reflexivity]. Qed.

(** The format guess reads the first usable date: a record whose date is
    skipped, or that comes after a usable date, does not change it. *)
Lemma first_non_null_skip : forall l1 x l2,
  skipped_for_guess x = true \/ existsb (fun v => negb (skipped_for_guess v)) l1 = true ->
  first_non_null (l1 ++ x :: l2) = first_non_null (l1 ++ l2).
Proof.
  induction l1 as [|a l1 IH]; intros x l2 H; simpl in H |- *.
  - destruct H as [H|H]; [rewrite H; reflexivity|discriminate].
  - destruct (skipped_for_guess a) eqn:Ea; [|reflexivity].
    apply IH; destruct H as [H|H]; [left; exact H|right; exact H].
Qed.

(** The frame of [main], as the map of one row function over the
    records. *)
Lemma main_frame_mid : forall tn r32 rs1 r rs2,
  main_frame tn r32 (rs1 ++ r :: rs2) =
    map (numeric_row (downcast_float r32
           (map (fun r => tn (raw_time_spent_seconds r)) (rs1 ++ r :: rs2))) tn) rs1 ++
    numeric_row (downcast_float r32
           (map (fun r => tn (raw_time_spent_seconds r)) (rs1 ++ r :: rs2))) tn r ::
    map (numeric_row (downcast_float r32
           (map (fun r => tn (raw_time_spent_seconds r)) (rs1 ++ r :: rs2))) tn) rs2.
Proof. intros; unfold main_frame; cbv zeta; apply map_app. Qed.

(** A record whose value does not change the downcast decision leaves
    the other rows of the frame as they are. *)
Lemma main_frame_drop : forall tn r32 rs1 r rs2,
  fits32 r32 (tn (raw_time_spent_seconds r)) = true ->
  main_frame tn r32 (rs1 ++ rs2) =
    map (numeric_row (downcast_float r32
           (map (fun r => tn (raw_time_spent_seconds r)) (rs1 ++ r :: rs2))) tn) rs1 ++
    map (numeric_row (downcast_float r32
           (map (fun r => tn (raw_time_spent_seconds r)) (rs1 ++ r :: rs2))) tn) rs2.
Proof.
  intros tn r32 rs1 r rs2 H; unfold main_frame; cbv zeta.
  assert (E : downcast_float r32 (map (fun r => tn (raw_time_spent_seconds r)) (rs1 ++ rs2)) =
              downcast_float r32 (map (fun r => tn (raw_time_spent_seconds r)) (rs1 ++ r :: rs2))).
  { unfold downcast_float; rewrite !map_app, !forallb_app; simpl; rewrite H; reflexivity. }
  rewrite E; apply map_app.
Qed.

Lemma with_months_drop : forall g c A x B,
  infer_format g (map worklog_start (A ++ x :: B)) =
    infer_format g (map worklog_start (A ++ B)) ->
  drop_row (List.length A) (with_months g c (A ++ x :: B)) = with_months g c (A ++ B).
Proof.
  intros g c A x B H; unfold with_months; rewrite H; cbv zeta.
  generalize (infer_format g (map worklog_start (A ++ B))); intros fmt.
  apply drop_row_map.
Qed.

(** With a record that fits the downcast and does not fix the date
    format, the frame with months of the other records is that of the
    records without it. *)
Lemma frame_drop : forall tn r32 g c rs1 r rs2,
  fits32 r32 (tn (raw_time_spent_seconds r)) = true ->
  skipped_for_guess (raw_worklog_start r) = true \/
  existsb (fun r' => negb (skipped_for_guess (raw_worklog_start r'))) rs1 = true ->
  drop_row (List.length rs1) (with_months g c (main_frame tn r32 (rs1 ++ r :: rs2))) =
  with_months g c (main_frame tn r32 (rs1 ++ rs2)).
Proof.
  intros tn r32 g c rs1 r rs2 Hf Hg.
  rewrite main_frame_mid, (main_frame_drop tn r32 rs1 r rs2 Hf).
  rewrite <- (length_map (numeric_row (downcast_float r32
           (map (fun r => tn (raw_time_spent_seconds r)) (rs1 ++ r :: rs2))) tn) rs1).
  apply with_months_drop.
  unfold infer_format; rewrite !map_app; simpl.
  rewrite first_non_null_skip; [reflexivity|].
  destruct Hg as [Hg|Hg]; [left; exact Hg|right].
  rewrite !existsb_map; exact Hg.
Qed.

(** A row whose seconds are not finite is dropped before the groups are
    formed. *)
Lemma tables_skip_nonfin : forall M1 m M2,
  is_fin (time_spent_seconds m) = false ->
  tables_of_frame (M1 ++ m :: M2) = tables_of_frame (M1 ++ M2).
Proof.
  intros M1 m M2 H; unfold tables_of_frame, average_after_months; cbv zeta.
  rewrite filter_map_skip; [reflexivity|].
  simpl; rewrite is_fin_replace_inf; exact H.
Qed.

Lemma tables_drop_nonfin_row : forall (h : frame_row -> frame_row) F1 fr F2,
  is_fin (time_spent_seconds (h fr)) = false ->
  tables_of_frame (map h (F1 ++ fr :: F2)) =
  tables_of_frame (drop_row (List.length F1) (map h (F1 ++ fr :: F2))).
Proof.
  intros h F1 fr F2 H; rewrite map_app; simpl.
  rewrite <- (length_map h F1), drop_row_mid; apply tables_skip_nonfin; exact H.
Qed.

End AggFacts.

(** C8. A record whose [time_spent_seconds] coerces to a non-finite value
    ([NaN] for a failed coercion such as ["NaN"], or an infinity such as
    ["Infinity"]) is dropped from the frame before the groups are formed:
    for every record sequence, both per-(user, month) tables (the mean of
    [calculate_average_time] and the sum of
    [plot_total_time_spent_per_tester]) are those of the frame without
    that record's row, the month column and the float dtype of the other
    rows being computed on the whole column (a zero in its place would
    change the mean). Its value never changes the float32 downcast; its
    date can still fix the format [pd.to_datetime] infers for the column
    when it is the first usable date. When its date is skipped by that
    inference, or an earlier record has a usable date, the tables are the
    same as for the records without it. *)
Theorem monthly_tables_drop_nonfinite : forall to_numeric round32 guess cell rs1 r rs2,
  JiraPlot.is_fin (to_numeric (JiraPlot.raw_time_spent_seconds r)) = false ->
  JiraPlot.monthly_tables to_numeric round32 guess cell (rs1 ++ r :: rs2) =
    JiraPlot.tables_of_frame
      (JiraPlot.drop_row (List.length rs1)
         (JiraPlot.with_months guess cell
            (JiraPlot.main_frame to_numeric round32 (rs1 ++ r :: rs2)))) /\
  (JiraPlot.skipped_for_guess (JiraPlot.raw_worklog_start r) = true \/
   existsb (fun r' => negb (JiraPlot.skipped_for_guess (JiraPlot.raw_worklog_start r'))) rs1
     = true ->
   JiraPlot.monthly_tables to_numeric round32 guess cell (rs1 ++ r :: rs2) =
   JiraPlot.monthly_tables to_numeric round32 guess cell (rs1 ++ rs2)).
Proof.
  intros tn r32 g c rs1 r rs2 H.
  assert (H1 : JiraPlot.monthly_tables tn r32 g c (rs1 ++ r :: rs2) =
    JiraPlot.tables_of_frame
      (JiraPlot.drop_row (List.length rs1)
         (JiraPlot.with_months g c (JiraPlot.main_frame tn r32 (rs1 ++ r :: rs2))))).
  { change (JiraPlot.monthly_tables tn r32 g c (rs1 ++ r :: rs2)) with
      (JiraPlot.tables_of_frame
         (JiraPlot.with_months g c (JiraPlot.main_frame tn r32 (rs1 ++ r :: rs2)))).
    rewrite AggFacts.main_frame_mid.
    rewrite <- (length_map (JiraPlot.numeric_row (JiraPlot.downcast_float r32
           (map (fun r => tn (JiraPlot.raw_time_spent_seconds r)) (rs1 ++ r :: rs2))) tn) rs1).
    unfold JiraPlot.with_months at 1 2; cbv zeta.
    apply AggFacts.tables_drop_nonfin_row.
    simpl; apply AggFacts.is_fin_conv; exact H. }
  split; [exact H1|].
  intros Hg; rewrite H1, (AggFacts.frame_drop tn r32 g c rs1 r rs2); [reflexivity| |exact Hg].
  apply AggFacts.fits32_nonfin; exact H.
Qed.

Lemma monthly_tables_drop_nonfinite_witness :
  JiraPlot.monthly_tables Inputs.to_numeric_ex Inputs.round32_ex Inputs.guess_ex
    Inputs.cell_ex [Inputs.rec_a1; Inputs.rec_nan; Inputs.rec_a2] =
  JiraPlot.monthly_tables Inputs.to_numeric_ex Inputs.round32_ex Inputs.guess_ex
    Inputs.cell_ex [Inputs.rec_a1; Inputs.rec_a2].
Proof.
  exact (proj2 (monthly_tables_drop_nonfinite Inputs.to_numeric_ex Inputs.round32_ex
           Inputs.guess_ex Inputs.cell_ex [Inputs.rec_a1] Inputs.rec_nan [Inputs.rec_a2]
           eq_refl) (or_intror eq_refl)).
Defined.

(** A record with a non-finite value placed first fixes the date format
    of the column: the other record's date, of another shape, becomes
    [NaT], and its month changes. *)
Lemma monthly_tables_nonfinite_fixes_format :
  map (fun x => fst (fst x))
    (fst (JiraPlot.monthly_tables Inputs.to_numeric_ex Inputs.round32_ex Inputs.guess_ex
            Inputs.cell_ex [Inputs.rec_nan; Inputs.rec_full])) = [(S_ "Ann", S_ "NaT")] /\
  map (fun x => fst (fst x))
    (fst (JiraPlot.monthly_tables Inputs.to_numeric_ex Inputs.round32_ex Inputs.guess_ex
            Inputs.cell_ex [Inputs.rec_full])) = [(S_ "Ann", S_ "2024-01")].
Proof. split; vm_compute; reflexivity. Qed.

(* ================================================================= *)
(** ** Claim on the cumulative effort *)

Module CumFacts.

Lemma filterM_in : forall {A} (p : A -> option bool) l l' x,
  filterM p l = Some l' -> In x l' -> In x l.
Proof.
  intros A p; induction l as [|a l IH]; intros l' x H Hx; simpl in H.
  - inversion H; subst; contradiction.
  - destruct (p a) as [b|]; [|discriminate].
    destruct (filterM p l) as [ys|] eqn:E; [|discriminate].
    inversion H; subst; clear H.
    destruct b; [destruct Hx as [<-|Hx]; [left; reflexivity|]|];
      right; eapply IH; eauto.
Qed.

Lemma mapM_length : forall {A B} (f : A -> option B) l l',
  mapM f l = Some l' -> List.length l' = List.length l.
Proof.
  intros A B f; induction l as [|a l IH]; intros l' H; simpl in H.
  - inversion H; reflexivity.
  - destruct (f a); [|discriminate].
    destruct (mapM f l) eqn:E; [|discriminate].
    inversion H; subst; simpl; f_equal; apply IH; reflexivity.
Qed.

Lemma mapM_Forall : forall {A B} (f : A -> option B) (P : B -> Prop) l l',
  (forall x y, In x l -> f x = Some y -> P y) ->
  mapM f l = Some l' -> Forall P l'.
Proof.
  intros A B f P; induction l as [|a l IH]; intros l' Hf H; simpl in H.
  - inversion H; constructor.
  - destruct (f a) as [y|] eqn:Ea; [|discriminate].
    destruct (mapM f l) eqn:E; [|discriminate].
    inversion H; subst; constructor.
    + eapply Hf; [left; reflexivity|exact Ea].
    + apply IH; [intros x z Hx; apply Hf; right; exact Hx|reflexivity].
Qed.

(** Filtering and mapping commute with reordering the input. *)
Lemma filterM_perm : forall {A} (p : A -> option bool) l l',
  Permutation l l' -> forall s, filterM p l = Some s ->
  exists s', filterM p l' = Some s' /\ Permutation s s'.
Proof.
  intros A p l l' H; induction H as [|x l l' H IH|y x l|l l' l'' H1 IH1 H2 IH2];
    intros s Hs.
  - exists s; split; [exact Hs|reflexivity].
  - simpl in Hs. destruct (p x) as [b|] eqn:Ep; [|discriminate].
    destruct (filterM p l) as [ys|] eqn:El; [|discriminate].
    injection Hs as <-.
    destruct (IH ys eq_refl) as [ys' [E' P']].
    exists (if b then x :: ys' else ys'); split.
    + simpl; rewrite Ep, E'; reflexivity.
    + destruct b; [apply perm_skip|]; exact P'.
  - simpl in Hs. destruct (p x) as [b2|] eqn:Ex; [|discriminate].
    destruct (p y) as [b1|] eqn:Ey; [|discriminate].
    destruct (filterM p l) as [ys|] eqn:El; [|discriminate].
    injection Hs as <-.
    exists (if b1 then y :: (if b2 then x :: ys else ys)
            else (if b2 then x :: ys else ys)); split.
    + simpl; rewrite Ex, Ey, El; reflexivity.
    + destruct b1, b2; [apply perm_swap|reflexivity..].
  - destruct (IH1 s Hs) as [s1 [E1 P1]]; destruct (IH2 s1 E1) as [s2 [E2 P2]].
    exists s2; split; [exact E2|eapply perm_trans; eassumption].
Qed.

Lemma mapM_perm : forall {A B} (f : A -> option B) l l',
  Permutation l l' -> forall r, mapM f l = Some r ->
  exists r', mapM f l' = Some r' /\ Permutation r r'.
Proof.
  intros A B f l l' H; induction H as [|x l l' H IH|y x l|l l' l'' H1 IH1 H2 IH2];
    intros r Hr.
  - exists r; split; [exact Hr|reflexivity].
  - simpl in Hr. destruct (f x) as [a|] eqn:Ef; [|discriminate].
    destruct (mapM f l) as [ys|] eqn:El; [|discriminate].
    injection Hr as <-.
    destruct (IH ys eq_refl) as [ys' [E' P']].
    exists (a :: ys'); split.
    + simpl; rewrite Ef, E'; reflexivity.
    + apply perm_skip; exact P'.
  - simpl in Hr. destruct (f x) as [b|] eqn:Ex; [|discriminate].
    destruct (f y) as [a|] eqn:Ey; [|discriminate].
    destruct (mapM f l) as [ys|] eqn:El; [|discriminate].
    injection Hr as <-.
    exists (a :: b :: ys); split.
    + simpl; rewrite Ex, Ey, El; reflexivity.
    + apply perm_swap.
  - destruct (IH1 r Hr) as [r1 [E1 P1]]; destruct (IH2 r1 E1) as [r2 [E2 P2]].
    exists r2; split; [exact E2|eapply perm_trans; eassumption].
Qed.

Definition pair_of {A B C} (f : A -> option B) (g : A -> option C) (x : A)
    : option (B * C) :=
  match f x, g x with Some a, Some b => Some (a, b) | _, _ => None end.

Lemma mapM_pair : forall {A B C} (f : A -> option B) (g : A -> option C) l d e,
  mapM f l = Some d -> mapM g l = Some e -> mapM (pair_of f g) l = Some (combine d e).
Proof.
  intros A B C f g; induction l as [|x l IH]; intros d e Hd He; simpl in Hd, He.
  - injection Hd as <-; injection He as <-; reflexivity.
  - destruct (f x) as [a|] eqn:Ef; [|discriminate].
    destruct (mapM f l) as [d'|] eqn:Ed; [|discriminate].
    destruct (g x) as [b|] eqn:Eg; [|discriminate].
    destruct (mapM g l) as [e'|] eqn:Ee; [|discriminate].
    injection Hd as <-; injection He as <-.
    simpl; unfold pair_of at 1; rewrite Ef, Eg, (IH d' e' eq_refl eq_refl); reflexivity.
Qed.

Lemma forallb_perm : forall {A} (f : A -> bool) l l',
  Permutation l l' -> forallb f l = forallb f l'.
Proof.
  intros A f l l' H; induction H; simpl; try congruence.
  destruct (f x), (f y); reflexivity.
Qed.

(** Two orderings of the same pairs, both strictly increasing in the
    first component, are equal. *)
Lemma sorted_nodup_lt : forall l : list Z,
  Sorted Z.le l -> NoDup l -> StronglySorted Z.lt l.
Proof.
  intros l Hs Hn.
  apply Sorted_StronglySorted in Hs; [|intros a b c; lia].
  induction Hs as [|a l Hs IH Hall]; [constructor|].
  inversion Hn as [|? ? Hnin Hn']; subst.
  constructor; [apply IH; exact Hn'|].
  rewrite Forall_forall in Hall |- *; intros b Hb.
  specialize (Hall b Hb).
  assert (a <> b) by (intros ->; contradiction). lia.
Qed.

Lemma sorted_pairs_unique : forall P P' : list (Z * Z),
  StronglySorted Z.lt (map fst P) -> StronglySorted Z.lt (map fst P') ->
  Permutation P P' -> P = P'.
Proof.
  induction P as [|a P IH]; intros P' H H' HP.
  - symmetry; apply Permutation_nil; exact HP.
  - destruct P' as [|b P'].
    + apply Permutation_length in HP; discriminate.
    + simpl in H, H'.
      inversion H as [|? ? HS HF]; inversion H' as [|? ? HS' HF']; subst.
      assert (Ha : In a (b :: P'))
        by (eapply Permutation_in; [exact HP|left; reflexivity]).
      assert (Hb : In b (a :: P))
        by (eapply Permutation_in; [symmetry; exact HP|left; reflexivity]).
      assert (a = b).
      { destruct Ha as [Ha|Ha]; [symmetry; exact Ha|].
        destruct Hb as [Hb|Hb]; [exact Hb|].
        rewrite Forall_forall in HF, HF'.
        pose proof (HF' (fst a) (in_map fst _ _ Ha)).
        pose proof (HF (fst b) (in_map fst _ _ Hb)). lia. }
      subst b; f_equal; apply IH; [exact HS|exact HS'|].
      apply Permutation_cons_inv with a; exact HP.
Qed.

(** Wrap-around arithmetic. *)
Lemma wrap64_add : forall a x, wrap64 (wrap64 a + x) = wrap64 (a + x).
Proof.
  intros a x; unfold wrap64.
  replace ((a + 2 ^ 63) mod 2 ^ 64 - 2 ^ 63 + x + 2 ^ 63)
    with ((a + 2 ^ 63) mod 2 ^ 64 + x) by ring.
  replace (a + x + 2 ^ 63) with (a + 2 ^ 63 + x) by ring.
  rewrite Z.add_mod_idemp_l by (compute; discriminate); reflexivity.
Qed.

Lemma wrap64_small : forall z, - 2 ^ 63 <= z < 2 ^ 63 -> wrap64 z = z.
Proof.
  intros z H; unfold wrap64.
  assert (E : 2 ^ 64 = 2 ^ 63 + 2 ^ 63) by reflexivity.
  rewrite E; set (M := 2 ^ 63) in *.
  rewrite Z.mod_small; lia.
Qed.

Lemma last_cumsum_from : forall l acc d,
  l <> [] -> last (cumsum_from acc l) d = wrap64 (acc + zsum l).
Proof.
  induction l as [|x l IH]; intros acc d H; [congruence|].
  destruct l as [|y l].
  - change (wrap64 (acc + x) = wrap64 (acc + (x + 0))).
    rewrite Z.add_0_r; reflexivity.
  - change (last (cumsum_from (wrap64 (acc + x)) (y :: l)) d =
            wrap64 (acc + (x + zsum (y :: l)))).
    rewrite IH by discriminate; rewrite wrap64_add; f_equal; ring.
Qed.

Lemma last_cumsum : forall l, last (cumsum l) 0 = wrap64 (zsum l).
Proof.
  intros [|x l]; [reflexivity|].
  unfold cumsum; rewrite last_cumsum_from by discriminate; reflexivity.
Qed.

Lemma zsum_perm : forall l l', Permutation l l' -> zsum l = zsum l'.
Proof.
  intros l l' H; induction H; simpl; lia.
Qed.

Lemma zsum_nonneg : forall l, Forall (fun x => 0 <= x) l -> 0 <= zsum l.
Proof.
  induction l as [|x l IH]; intros H; simpl; [lia|].
  inversion H; subst; specialize (IH H3); lia.
Qed.

Lemma cumsum_from_sorted : forall l acc,
  0 <= acc -> Forall (fun x => 0 <= x) l -> acc + zsum l < 2 ^ 63 ->
  Sorted Z.le (cumsum_from acc l) /\ Forall (fun v => acc <= v) (cumsum_from acc l).
Proof.
  induction l as [|x l IH]; intros acc Ha Hl Hs; [split; constructor|].
  inversion Hl as [|? ? Hx Hl']; subst.
  pose proof (zsum_nonneg l Hl') as Hz.
  change (acc + (x + zsum l) < 2 ^ 63) in Hs.
  cbn [cumsum_from].
  rewrite (wrap64_small (acc + x)) by (set (M := 2 ^ 63) in *; lia).
  destruct (IH (acc + x) ltac:(lia) Hl' ltac:(lia)) as [Hsort Hlow].
  split.
  - constructor; [exact Hsort|].
    destruct (cumsum_from (acc + x) l) as [|v vs]; constructor.
    inversion Hlow; assumption.
  - constructor; [lia|].
    eapply Forall_impl; [|exact Hlow]; intros v Hv; cbv beta in Hv; lia.
Qed.

Lemma map_nth_seq : forall {A} (l : list A) d,
  map (fun i => nth i l d) (seq 0 (List.length l)) = l.
Proof.
  intros A l d; induction l as [|x l IH]; simpl; [reflexivity|].
  f_equal; rewrite <- seq_shift, map_map; simpl; exact IH.
Qed.

Lemma nth_perm : forall {A} (l : list A) d idx,
  Permutation idx (seq 0 (List.length l)) ->
  Permutation (map (fun i => nth i l d) idx) l.
Proof.
  intros A l d idx H.
  eapply perm_trans; [apply Permutation_map, H|].
  rewrite map_nth_seq; reflexivity.
Qed.

Lemma nth_nonneg : forall (l : list Z) i,
  Forall (fun x => 0 <= x) l -> 0 <= nth i l 0.
Proof.
  intros l i H; destruct (Nat.lt_ge_cases i (List.length l)) as [Hi|Hi].
  - rewrite Forall_forall in H; apply H, nth_In, Hi.
  - rewrite nth_overflow by exact Hi; lia.
Qed.

(** The stable insertion sort is an admissible [np.argsort]. *)
Lemma insert_idx_perm : forall key i l, Permutation (insert_idx key i l) (i :: l).
Proof.
  intros key i; induction l as [|j l IH]; simpl; [reflexivity|].
  destruct (key j <=? key i); [|reflexivity].
  eapply perm_trans; [apply perm_skip, IH|apply perm_swap].
Qed.

Lemma argsort_fold_perm : forall key l acc,
  Permutation (fold_left (fun acc i => insert_idx key i acc) l acc) (l ++ acc).
Proof.
  intros key; induction l as [|i l IH]; intros acc; simpl; [reflexivity|].
  eapply perm_trans; [apply IH|].
  eapply perm_trans; [apply Permutation_app_head, insert_idx_perm|].
  symmetry; apply Permutation_middle.
Qed.

Lemma argsort_stable_perm : forall ds,
  Permutation (argsort_stable ds) (seq 0 (List.length ds)).
Proof.
  intros ds; unfold argsort_stable.
  rewrite <- (app_nil_r (seq 0 (List.length ds))) at 2; apply argsort_fold_perm.
Qed.

Lemma insert_idx_sorted : forall key i l,
  Sorted Z.le (map key l) -> Sorted Z.le (map key (insert_idx key i l)).
Proof.
  intros key i; induction l as [|j l IH]; intros H; simpl; [repeat constructor|].
  destruct (Z.leb_spec (key j) (key i)) as [Hle|Hlt].
  - simpl. inversion H as [|? ? Hs Hh]; subst.
    constructor; [apply IH; exact Hs|].
    destruct l as [|k l]; simpl; [constructor; exact Hle|].
    simpl in Hh; inversion Hh; subst.
    destruct (key k <=? key i); simpl; constructor; assumption.
  - simpl. constructor; [exact H|]. constructor; lia.
Qed.

Lemma argsort_fold_sorted : forall key l acc,
  Sorted Z.le (map key acc) ->
  Sorted Z.le (map key (fold_left (fun acc i => insert_idx key i acc) l acc)).
Proof.
  intros key; induction l as [|i l IH]; intros acc H; simpl; [exact H|].
  apply IH, insert_idx_sorted, H.
Qed.

Lemma argsort_stable_sorts : argsort_sorts argsort_stable.
Proof.
  intros l; split; [apply argsort_stable_perm|].
  unfold argsort_stable; apply argsort_fold_sorted; constructor.
Qed.

End CumFacts.

(** C9 (amended). For any [np.argsort] (a permutation of the indices
    that orders the dates), when every effort fits int64: the last
    plotted cumulative effort is the sum of all efforts wrapped into
    int64, and the cumulative efforts are non-decreasing when no effort
    string has a minus sign and the sum is below 2^63. When the dates are
    pairwise distinct, the plotted dates and cumulative efforts are the
    same for every order of the issues in the input. *)
Theorem cumulative_effort_running_total :
  forall strptime argsort cumsum_wide issues ds cum,
  argsort_sorts argsort ->
  cumulative_effort strptime argsort cumsum_wide issues = Some (ds, cum) ->
  (forall es, efforts_of issues = Some es -> forallb fits_int64 es = true ->
     last cum 0 = wrap64 (zsum es) /\
     (forallb effort_has_no_minus issues = true -> zsum es < 2 ^ 63 ->
      Sorted Z.le cum)) /\
  (NoDup ds -> forall issues', Permutation issues issues' ->
     cumulative_effort strptime argsort cumsum_wide issues' = Some (ds, cum)).
Proof.
  intros strptime argsort cw issues ds cum Hsort H.
  unfold cumulative_effort, obind in H.
  destruct (dates_of strptime issues) as [dates|] eqn:Ed; [|discriminate].
  destruct (efforts_of issues) as [efforts|] eqn:Ee; [|discriminate].
  cbv zeta in H; injection H as Hds Hcum.
  pose proof Ed as Ed'; pose proof Ee as Ee'.
  unfold dates_of, efforts_of, obind in Ed', Ee'.
  destruct (filterM has_date_and_effort issues) as [sel|] eqn:Es; [|discriminate].
  assert (Hlen : List.length dates = List.length efforts)
    by (rewrite (CumFacts.mapM_length _ _ _ Ed'), (CumFacts.mapM_length _ _ _ Ee');
        reflexivity).
  set (arr := map (fun i => nth i efforts 0) (argsort dates)) in *.
  assert (Harr : Permutation arr efforts).
  { apply CumFacts.nth_perm; rewrite <- Hlen; apply (proj1 (Hsort dates)). }
  split.
  - intros es Hes Hfit; injection Hes as <-.
    rewrite Hfit in Hcum; subst cum.
    split.
    + rewrite CumFacts.last_cumsum, (CumFacts.zsum_perm _ _ Harr); reflexivity.
    + intros Hminus Hsum.
      assert (Hnn : Forall (fun x => 0 <= x) efforts).
      { eapply CumFacts.mapM_Forall; [|exact Ee'].
        intros issue y Hin Hy.
        pose proof (CumFacts.filterM_in _ _ _ _ Es Hin) as Hin'.
        rewrite forallb_forall in Hminus; specialize (Hminus _ Hin').
        unfold effort_has_no_minus in Hminus; unfold issue_effort in Hy.
        destruct (getitem issue (S_ "effort")) as [[| | | s | |]|]; try discriminate.
        inversion Hy; subst y.
        apply EffortFacts.convert_nonneg; apply negb_true_iff; exact Hminus. }
      assert (Hnn' : Forall (fun x => 0 <= x) arr).
      { apply Forall_forall; intros v Hv.
        apply in_map_iff in Hv as [i [<- _]].
        apply CumFacts.nth_nonneg; exact Hnn. }
      apply (CumFacts.cumsum_from_sorted arr 0 (Z.le_refl 0) Hnn').
      rewrite (CumFacts.zsum_perm _ _ Harr); exact Hsum.
  - intros Hnd issues' Hp.
    destruct (CumFacts.filterM_perm _ _ _ Hp sel Es) as [sel' [Es' Psel]].
    destruct (CumFacts.mapM_perm _ _ _ Psel _ Ed') as [dates' [Ed2 Pd]].
    destruct (CumFacts.mapM_perm _ _ _ Psel _ Ee') as [efforts' [Ee2 Pe]].
    assert (Hlen' : List.length dates' = List.length efforts')
      by (rewrite (CumFacts.mapM_length _ _ _ Ed2), (CumFacts.mapM_length _ _ _ Ee2);
          reflexivity).
    pose proof (CumFacts.mapM_pair _ _ _ _ _ Ed' Ee') as Hc.
    pose proof (CumFacts.mapM_pair _ _ _ _ _ Ed2 Ee2) as Hc'.
    destruct (CumFacts.mapM_perm _ _ _ Psel _ Hc) as [C [HC PC]].
    rewrite Hc' in HC; injection HC as <-.
    set (key := fun i => nth i (combine dates efforts) (0, 0)).
    set (key' := fun i => nth i (combine dates' efforts') (0, 0)).
    assert (HPc : Permutation (map key (argsort dates)) (combine dates efforts)).
    { apply CumFacts.nth_perm; rewrite length_combine, <- Hlen, Nat.min_id.
      apply (proj1 (Hsort dates)). }
    assert (HPc' : Permutation (map key' (argsort dates')) (combine dates' efforts')).
    { apply CumFacts.nth_perm; rewrite length_combine, <- Hlen', Nat.min_id.
      apply (proj1 (Hsort dates')). }
    assert (Hfst : map fst (map key (argsort dates)) =
                   map (fun i => nth i dates 0) (argsort dates)).
    { rewrite map_map; apply map_ext; intros i; unfold key.
      rewrite combine_nth by exact Hlen; reflexivity. }
    assert (Hsnd : map snd (map key (argsort dates)) = arr).
    { rewrite map_map; apply map_ext; intros i; unfold key.
      rewrite combine_nth by exact Hlen; reflexivity. }
    assert (Hfst' : map fst (map key' (argsort dates')) =
                    map (fun i => nth i dates' 0) (argsort dates')).
    { rewrite map_map; apply map_ext; intros i; unfold key'.
      rewrite combine_nth by exact Hlen'; reflexivity. }
    assert (Hsnd' : map snd (map key' (argsort dates')) =
                    map (fun i => nth i efforts' 0) (argsort dates')).
    { rewrite map_map; apply map_ext; intros i; unfold key'.
      rewrite combine_nth by exact Hlen'; reflexivity. }
    assert (HPP : Permutation (map key (argsort dates)) (map key' (argsort dates'))).
    { eapply perm_trans; [exact HPc|]; eapply perm_trans; [exact PC|].
      symmetry; exact HPc'. }
    assert (Hnd1 : NoDup (map fst (map key (argsort dates))))
      by (rewrite Hfst, Hds; exact Hnd).
    assert (Heq : map key (argsort dates) = map key' (argsort dates')).
    { apply CumFacts.sorted_pairs_unique; [| |exact HPP].
      - rewrite Hfst; apply CumFacts.sorted_nodup_lt;
          [apply (proj2 (Hsort dates))|rewrite <- Hfst; exact Hnd1].
      - rewrite Hfst'; apply CumFacts.sorted_nodup_lt; [apply (proj2 (Hsort dates'))|].
        rewrite <- Hfst'; eapply Permutation_NoDup; [|exact Hnd1].
        apply Permutation_map; exact HPP. }
    unfold cumulative_effort, obind.
    assert (Hd2 : dates_of strptime issues' = Some dates')
      by (unfold dates_of, obind; rewrite Es'; exact Ed2).
    assert (He2 : efforts_of issues' = Some efforts')
      by (unfold efforts_of, obind; rewrite Es'; exact Ee2).
    rewrite Hd2, He2; cbv zeta.
    rewrite <- (CumFacts.forallb_perm fits_int64 _ _ Pe), <- Hfst', <- Hsnd', <- Heq,
      Hfst, Hsnd, Hds, Hcum.
    reflexivity.
Qed.

Lemma cumulative_effort_running_total_witness :
  cumulative_effort iso_instant argsort_stable Inputs.cumsum_object Inputs.issues_unordered =
    Some ([1704067200; 1706745600; 1709251200], [60; 240; 360]) /\
  last [60; 240; 360] 0 = wrap64 (zsum [120; 60; 180]) /\
  Sorted Z.le [60; 240; 360] /\
  cumulative_effort iso_instant argsort_stable Inputs.cumsum_object
    (rev Inputs.issues_unordered) =
    Some ([1704067200; 1706745600; 1709251200], [60; 240; 360]).
Proof.
  assert (H : cumulative_effort iso_instant argsort_stable Inputs.cumsum_object
                Inputs.issues_unordered =
                Some ([1704067200; 1706745600; 1709251200], [60; 240; 360]))
    by (vm_compute; reflexivity).
  pose proof (cumulative_effort_running_total iso_instant argsort_stable
                Inputs.cumsum_object Inputs.issues_unordered _ _
                CumFacts.argsort_stable_sorts H) as [H1 H2].
  split; [exact H|].
  split; [exact (proj1 (H1 [120; 60; 180] ltac:(vm_compute; reflexivity)
                          ltac:(vm_compute; reflexivity)))|].
  split; [exact (proj2 (H1 [120; 60; 180] ltac:(vm_compute; reflexivity)
                          ltac:(vm_compute; reflexivity))
                   ltac:(vm_compute; reflexivity) ltac:(vm_compute; reflexivity))|].
  exact (H2 ltac:(repeat constructor; simpl; intuition discriminate)
            (rev Inputs.issues_unordered) (Permutation_rev _)).
Defined.

(** C9 (counterexample). Three inputs against the unamended claim:
    an issue of one hour followed a month later by one of ["-1h"] (read
    by [int()] as minus one hour) gives the cumulative efforts [60, 0];
    two efforts of ["100000000000000000h"] (6e18 minutes each, no minus
    sign) give [6000000000000000000, -6446744073709551616], as the int64
    running sum wraps; and two issues created at the same instant, of one
    and two hours, give [60, 180] or [120, 180] by their order in the
    input (here with the stable argsort). *)
Lemma cumulative_effort_decreases :
  cumulative_effort iso_instant argsort_stable Inputs.cumsum_object Inputs.issues_negative =
    Some ([1704873600; 1707552000], [60; 0]) /\
  ~ Sorted Z.le [60; 0] /\
  cumulative_effort iso_instant argsort_stable Inputs.cumsum_object Inputs.issues_overflow =
    Some ([1704873600; 1707552000], [6000000000000000000; -6446744073709551616]) /\
  forallb effort_has_no_minus Inputs.issues_overflow = true /\
  ~ Sorted Z.le [6000000000000000000; -6446744073709551616] /\
  cumulative_effort iso_instant argsort_stable Inputs.cumsum_object
    [Inputs.issue_tied_1h; Inputs.issue_tied_2h] =
    Some ([1704873600; 1704873600], [60; 180]) /\
  cumulative_effort iso_instant argsort_stable Inputs.cumsum_object
    [Inputs.issue_tied_2h; Inputs.issue_tied_1h] =
    Some ([1704873600; 1704873600], [120; 180]).
Proof.
  split; [vm_compute; reflexivity|].
  split; [intros H; apply Sorted_inv in H as [_ H]; inversion H; lia|].
  split; [vm_compute; reflexivity|].
  split; [vm_compute; reflexivity|].
  split; [intros H; apply Sorted_inv in H as [_ H]; inversion H; lia|].
  split; vm_compute; reflexivity.
Qed.

(* ================================================================= *)
(** * Further properties of the code *)

(** ** The date windows of [fetch_data_for_period] *)

Module WindowFacts.

Lemma days_in_month_ge : forall y m, 28 <= days_in_month y m.
Proof.
  intros y m; unfold days_in_month.
  destruct (m =? 2); [destruct (is_leap y)|destruct (_ || _)]; lia.
Qed.

Lemma shift_months_eq : forall y m d k D,
  shift_months (mkdate y m d) k = Some D ->
  let idx := y * 12 + (m - 1) + k in
  D = mkdate (idx / 12) (idx mod 12 + 1) (Z.min d (days_in_month (idx / 12) (idx mod 12 + 1))) /\
  1 <= idx / 12.
Proof.
  intros y m d k D H idx; unfold shift_months in H; simpl in H.
  destruct (_ && _) eqn:E; [|discriminate].
  injection H as <-; split; [reflexivity|].
  apply andb_true_iff in E as [E _]; apply Z.leb_le in E; exact E.
Qed.

Lemma shift_months_some : forall y m d k,
  let idx := y * 12 + (m - 1) + k in
  12 <= idx -> idx < 120000 ->
  exists D, shift_months (mkdate y m d) k = Some D /\
            (13 <= idx -> exists p, prev_day D = Some p).
Proof.
  intros y m d k idx H1 H2.
  pose proof (Z.div_mod idx 12 ltac:(lia)) as Hdm.
  pose proof (Z.mod_pos_bound idx 12 ltac:(lia)) as Hb.
  unfold shift_months; simpl; fold idx.
  replace ((MINYEAR <=? idx / 12) && (idx / 12 <=? MAXYEAR)) with true
    by (symmetry; apply andb_true_iff; unfold MINYEAR, MAXYEAR; split; apply Z.leb_le; lia).
  eexists; split; [reflexivity|]; intros H3.
  unfold prev_day; simpl.
  destruct (1 <? _); [eexists; reflexivity|].
  destruct (1 <? idx mod 12 + 1) eqn:E; [eexists; reflexivity|].
  apply Z.ltb_ge in E.
  replace (MINYEAR <? idx / 12) with true
    by (symmetry; apply Z.ltb_lt; unfold MINYEAR; lia).
  eexists; reflexivity.
Qed.

Lemma window_some : forall y m d i,
  valid_date (mkdate y m d) = true -> 0 <= i -> 12 <= y * 12 + m - 1 - i ->
  exists w, window (mkdate y m d) i = Some w /\ day (fst w) = 1.
Proof.
  intros y m d i Hv Hi Hy.
  unfold valid_date in Hv; simpl in Hv; unfold MINYEAR, MAXYEAR in Hv.
  repeat rewrite andb_true_iff in Hv; repeat rewrite Z.leb_le in Hv.
  destruct (shift_months_some y m d (- i)) as [S1 [ES1 _]]; [lia|lia|].
  unfold window; rewrite ES1.
  destruct (i =? 0) eqn:Ei; simpl.
  - eexists; split; reflexivity.
  - apply Z.eqb_neq in Ei.
    destruct (shift_months_some y m d (- (i - 1))) as [S2 [ES2 HP]]; [lia|lia|].
    rewrite ES2; destruct (HP ltac:(lia)) as [p Ep]; rewrite Ep.
    eexists; split; reflexivity.
Qed.

Lemma window_zero : forall y m d,
  valid_date (mkdate y m d) = true ->
  window (mkdate y m d) 0 = Some (mkdate y m 1, mkdate y m d).
Proof.
  intros y m d Hv.
  unfold valid_date in Hv; simpl in Hv; unfold MINYEAR, MAXYEAR in Hv.
  repeat rewrite andb_true_iff in Hv; repeat rewrite Z.leb_le in Hv.
  assert (Hq : (y * 12 + (m - 1) + 0) / 12 = y)
    by (symmetry; apply Z.div_unique with (m - 1); lia).
  assert (Hr : (y * 12 + (m - 1) + 0) mod 12 = m - 1)
    by (symmetry; apply Z.mod_unique with y; lia).
  unfold window, shift_months; simpl; rewrite Hq, Hr.
  replace ((MINYEAR <=? y) && (y <=? MAXYEAR)) with true
    by (symmetry; apply andb_true_iff; unfold MINYEAR, MAXYEAR; split; apply Z.leb_le; lia).
  replace (m - 1 + 1) with m by lia.
  replace (Z.min d (days_in_month y m)) with d by lia.
  reflexivity.
Qed.

Lemma windows_of_some : forall today is,
  (forall i, In i is -> exists w, window today i = Some w) ->
  exists ws, windows_of today is = Some ws.
Proof.
  intros today; induction is as [|i is IH]; intros H; [exists []; reflexivity|].
  destruct (H i (or_introl eq_refl)) as [w Ew].
  destruct IH as [ws Ews]; [intros j Hj; apply H; right; exact Hj|].
  exists (w :: ws); simpl; rewrite Ew, Ews; reflexivity.
Qed.

Lemma windows_of_forall2 : forall today is ws,
  windows_of today is = Some ws -> Forall2 (fun i w => window today i = Some w) is ws.
Proof.
  intros today; induction is as [|i is IH]; intros ws H; simpl in H.
  - injection H as <-; constructor.
  - destruct (window today i) as [w|] eqn:Ew; [|discriminate].
    destruct (windows_of today is) as [ws'|]; [|discriminate].
    injection H as <-; constructor; [exact Ew|apply IH; reflexivity].
Qed.

Lemma in_range_down : forall mb i, In i (range_down mb) -> 0 <= i <= mb.
Proof.
  unfold range_down; intros mb i H.
  destruct (mb <? 0) eqn:E; [contradiction|apply Z.ltb_ge in E].
  apply in_map_iff in H as [k [<- Hk]]; apply in_seq in Hk; lia.
Qed.

Lemma range_down_snoc : forall mb, 0 <= mb ->
  range_down mb = map (fun k => mb - Z.of_nat k) (seq 0 (Z.to_nat mb)) ++ [0].
Proof.
  intros mb H; unfold range_down.
  replace (mb <? 0) with false by (symmetry; apply Z.ltb_ge; lia).
  rewrite seq_S, map_app; simpl; rewrite Z2Nat.id by lia.
  replace (mb - mb) with 0 by lia; reflexivity.
Qed.

Lemma range_down_length : forall mb, 0 <= mb -> List.length (range_down mb) = S (Z.to_nat mb).
Proof.
  intros mb H; unfold range_down.
  replace (mb <? 0) with false by (symmetry; apply Z.ltb_ge; lia).
  rewrite length_map, length_seq; reflexivity.
Qed.

Lemma calls_loop_all : forall returns cs,
  forallb returns cs = true -> calls_loop returns cs = (cs, true).
Proof.
  intros returns; induction cs as [|c cs IH]; intros H; [reflexivity|].
  simpl in H |- *; apply andb_prop in H as [H1 H2]; rewrite H1, (IH H2); reflexivity.
Qed.

Lemma calls_loop_stop : forall returns pre c post,
  forallb returns pre = true -> returns c = false ->
  calls_loop returns (pre ++ c :: post) = (pre ++ [c], false).
Proof.
  intros returns; induction pre as [|c' pre IH]; intros c post H Hc; simpl.
  - rewrite Hc; reflexivity.
  - simpl in H; apply andb_prop in H as [H1 H2]; rewrite H1, (IH c post H2 Hc); reflexivity.
Qed.

Lemma calls_loop_app : forall returns a b,
  calls_loop returns (a ++ b) =
    let (m, ok) := calls_loop returns a in
    if ok then let (m', ok') := calls_loop returns b in (m ++ m', ok') else (m, false).
Proof.
  intros returns; induction a as [|c a IH]; intros b; simpl.
  - destruct (calls_loop returns b); reflexivity.
  - destruct (returns c); [|reflexivity].
    rewrite IH; destruct (calls_loop returns a) as [m [|]]; [|reflexivity].
    destruct (calls_loop returns b); reflexivity.
Qed.

(** The loop is the inner loop run over all planned calls. *)
Lemma fetch_loop_run : forall returns today testers is ws,
  windows_of today is = Some ws ->
  fetch_loop returns today testers is =
    let (made, ok) := calls_loop returns (planned_calls testers ws) in
    if ok then Completed made else Raised made.
Proof.
  intros returns today testers; induction is as [|i is IH]; intros ws H; simpl in H.
  - injection H as <-; reflexivity.
  - simpl; destruct (window today i) as [[s e]|]; [|discriminate].
    destruct (windows_of today is) as [ws'|]; [|discriminate].
    injection H as <-; unfold planned_calls; simpl; fold (planned_calls testers ws').
    rewrite calls_loop_app.
    destruct (calls_loop returns (map (fun t => (t, s, e)) testers)) as [m [|]]; [|reflexivity].
    rewrite (IH ws' eq_refl).
    destruct (calls_loop returns (planned_calls testers ws')) as [m' [|]]; reflexivity.
Qed.

Lemma flat_map_map_length : forall (A B C : Type) (f : A -> B -> C) (l : list A) (m : list B),
  List.length (flat_map (fun a => map (f a) m) l) = (List.length l * List.length m)%nat.
Proof.
  intros A B C f l m; induction l as [|a l IH]; [reflexivity|].
  simpl; rewrite length_app, length_map, IH; reflexivity.
Qed.

End WindowFacts.

(** X1. For a valid [today] with enough years before it, the loop of
    [fetch_data_for_period] computes its windows without raising: there
    are [months_back + 1] of them, each starts on the first day of a
    month, and the last one is [first of the current month .. today]. *)
Theorem windows_shape : forall y m d months_back,
  valid_date (mkdate y m d) = true -> 0 <= months_back ->
  12 <= y * 12 + m - 1 - months_back ->
  exists ws, windows months_back (mkdate y m d) = Some ws /\
    List.length ws = S (Z.to_nat months_back) /\
    last ws (mkdate y m d, mkdate y m d) = (mkdate y m 1, mkdate y m d) /\
    Forall (fun w => day (fst w) = 1) ws.
Proof.
  intros y m d mb Hv Hmb Hy.
  destruct (WindowFacts.windows_of_some (mkdate y m d) (range_down mb)) as [ws Ews].
  { intros i Hi; apply WindowFacts.in_range_down in Hi.
    destruct (WindowFacts.window_some y m d i Hv) as [w [Ew _]]; [lia|lia|].
    exists w; exact Ew. }
  exists ws; unfold windows; split; [exact Ews|].
  pose proof (WindowFacts.windows_of_forall2 _ _ _ Ews) as HF.
  split; [rewrite <- (Forall2_length HF); apply WindowFacts.range_down_length; exact Hmb|].
  split.
  - rewrite (WindowFacts.range_down_snoc mb Hmb) in HF.
    apply Forall2_app_inv_l in HF as [ws1 [ws2 [_ [H2 ->]]]].
    inversion H2 as [|i w l l' Hw Hnil]; subst.
    inversion Hnil; subst.
    rewrite last_last; rewrite WindowFacts.window_zero in Hw by exact Hv.
    injection Hw as <-; reflexivity.
  - assert (HI : forall i, In i (range_down mb) -> 0 <= i <= mb)
      by apply WindowFacts.in_range_down.
    clear Ews; induction HF as [|i w is ws Hw HF IH]; constructor.
    + destruct (WindowFacts.window_some y m d i Hv) as [w' [Ew' Hd]];
        [apply HI; left; reflexivity|specialize (HI i (or_introl eq_refl)); lia|].
      rewrite Hw in Ew'; injection Ew' as ->; exact Hd.
    + apply IH; intros j Hj; apply HI; right; exact Hj.
Qed.

Lemma windows_shape_witness :
  valid_date (mkdate 2024 3 15) = true /\ 0 <= 2 /\ 12 <= 2024 * 12 + 3 - 1 - 2 /\
  exists ws, windows 2 (mkdate 2024 3 15) = Some ws /\
    List.length ws = S (Z.to_nat 2) /\
    last ws (mkdate 2024 3 15, mkdate 2024 3 15) = (mkdate 2024 3 1, mkdate 2024 3 15) /\
    Forall (fun w => day (fst w) = 1) ws.
Proof.
  split; [reflexivity|]; split; [lia|]; split; [lia|].
  apply windows_shape; [reflexivity|lia|lia].
Defined.

(** X2. Two consecutive windows [i] and [i - 1] ([i >= 1]): when [today]
    is the first of its month, the second starts the day after the first
    ends; on any later day the first ends inside the month where the
    second starts, so the two share at least that month's first day. *)
Theorem window_consecutive : forall today i s e s' e',
  1 <= day today -> 1 <= i ->
  window today i = Some (s, e) -> window today (i - 1) = Some (s', e') ->
  (day today = 1 -> next_day e = s') /\
  (1 < day today -> first_of_month e = s' /\ 1 <= day e).
Proof.
  intros [y m d] i s e s' e' Hd Hi H1 H2; simpl in Hd |- *.
  unfold window in H1, H2.
  destruct (shift_months _ (- i)) as [a|]; [|discriminate].
  replace (negb (i =? 0)) with true in H1
    by (symmetry; apply negb_true_iff, Z.eqb_neq; lia).
  destruct (shift_months (mkdate y m d) (- (i - 1))) as [D|] eqn:ED; [|discriminate].
  destruct (prev_day D) as [p|] eqn:EP; [|discriminate].
  injection H1 as _ <-.
  assert (Hs' : s' = first_of_month D).
  { destruct (negb (i - 1 =? 0)).
    - destruct (shift_months _ (- (i - 1 - 1))) as [D2|]; [|discriminate].
      destruct (prev_day D2) as [q|]; [|discriminate].
      injection H2 as <- _; reflexivity.
    - injection H2 as <- _; reflexivity. }
  subst s'; clear H2.
  apply WindowFacts.shift_months_eq in ED as [-> HY]; cbv zeta in HY.
  set (idx := y * 12 + (m - 1) + - (i - 1)) in *.
  pose proof (Z.mod_pos_bound idx 12 ltac:(lia)) as Hb.
  set (Y := idx / 12) in *; set (M := idx mod 12 + 1) in *.
  pose proof (WindowFacts.days_in_month_ge Y M) as HdM.
  unfold prev_day in EP; simpl in EP.
  split; intros Hday.
  - subst d; replace (Z.min 1 (days_in_month Y M)) with 1 in EP by lia.
    simpl in EP; unfold first_of_month; simpl.
    destruct (1 <? M) eqn:EM.
    + injection EP as <-; unfold next_day; simpl.
      rewrite Z.ltb_irrefl.
      replace (M - 1 <? 12) with true by (symmetry; apply Z.ltb_lt; lia).
      replace (M - 1 + 1) with M by lia; reflexivity.
    + apply Z.ltb_ge in EM.
      destruct (MINYEAR <? Y); [|discriminate].
      injection EP as <-; unfold next_day; simpl.
      replace (Y - 1 + 1) with Y by lia; replace M with 1 by lia; reflexivity.
  - replace (1 <? Z.min d (days_in_month Y M)) with true in EP
      by (symmetry; apply Z.ltb_lt; lia).
    injection EP as <-; unfold first_of_month; simpl; split; [reflexivity|lia].
Qed.

Lemma window_consecutive_witness :
  (1 <= day (mkdate 2024 3 15) /\ 1 <= 2 /\
   window (mkdate 2024 3 15) 2 = Some (mkdate 2024 1 1, mkdate 2024 2 14) /\
   window (mkdate 2024 3 15) (2 - 1) = Some (mkdate 2024 2 1, mkdate 2024 3 14)) /\
  ((day (mkdate 2024 3 15) = 1 -> next_day (mkdate 2024 2 14) = mkdate 2024 2 1) /\
   (1 < day (mkdate 2024 3 15) ->
      first_of_month (mkdate 2024 2 14) = mkdate 2024 2 1 /\ 1 <= day (mkdate 2024 2 14))).
Proof.
  assert (H1 : window (mkdate 2024 3 15) 2 = Some (mkdate 2024 1 1, mkdate 2024 2 14))
    by (vm_compute; reflexivity).
  assert (H2 : window (mkdate 2024 3 15) (2 - 1) = Some (mkdate 2024 2 1, mkdate 2024 3 14))
    by (vm_compute; reflexivity).
  split; [split; [simpl; lia|split; [lia|split; [exact H1|exact H2]]]|].
  exact (window_consecutive (mkdate 2024 3 15) 2 _ _ _ _ ltac:(simpl; lia) ltac:(lia) H1 H2).
Defined.

(** X3. When the windows compute, [fetch_data_for_period] makes the
    calls of [fetch_and_process_issues_for_tester] window by window (oldest
    first) and, inside a window, in the order of the testers, and stops at
    the first call that raises: when every call returns, all
    [len(windows) * len(testers)] calls are made and the run ends
    normally; otherwise the run raises after the calls up to the first
    raising one. *)
Theorem fetch_data_for_period_calls : forall returns months_back testers today ws,
  windows months_back today = Some ws ->
  (forallb returns (planned_calls testers ws) = true ->
     fetch_data_for_period returns months_back testers today =
       Completed (planned_calls testers ws) /\
     List.length (planned_calls testers ws) = (List.length ws * List.length testers)%nat) /\
  (forall pre c post, planned_calls testers ws = pre ++ c :: post ->
     forallb returns pre = true -> returns c = false ->
     fetch_data_for_period returns months_back testers today = Raised (pre ++ [c])).
Proof.
  intros returns mb testers today ws H.
  unfold fetch_data_for_period; rewrite (WindowFacts.fetch_loop_run returns _ _ _ _ H).
  split.
  - intros Hall; rewrite (WindowFacts.calls_loop_all _ _ Hall); split; [reflexivity|].
    apply (WindowFacts.flat_map_map_length _ _ _ (fun w t => (t, fst w, snd w))).
  - intros pre c post Hp Hpre Hc; rewrite Hp, (WindowFacts.calls_loop_stop _ _ _ _ Hpre Hc).
    reflexivity.
Qed.

Lemma fetch_data_for_period_calls_witness :
  fetch_data_for_period (call_returns Inputs.jira_401 Inputs.strftime_ex) 2
    [Inputs.tester_ex] (mkdate 2024 3 15) =
    Completed (planned_calls [Inputs.tester_ex]
                 [(mkdate 2024 1 1, mkdate 2024 2 14); (mkdate 2024 2 1, mkdate 2024 3 14);
                  (mkdate 2024 3 1, mkdate 2024 3 15)]).
Proof.
  refine (proj1 (proj1 (fetch_data_for_period_calls
            (call_returns Inputs.jira_401 Inputs.strftime_ex) 2 [Inputs.tester_ex]
            (mkdate 2024 3 15) _ _) _)).
  - vm_compute; reflexivity.
  - vm_compute; reflexivity.
Defined.

(** ** [convert_effort_to_minutes] on a number and one unit *)

Module DigitFacts.

Lemma strip_prefix_head_ne : forall o os c s,
  c <> o -> strip_prefix (o :: os) (c :: s) = None.
Proof.
  intros o os c s H; simpl; destruct (Ascii.eqb_spec o c); [congruence|reflexivity].
Qed.

Lemma py_in_skip : forall o os a b,
  ~ In o a -> py_in (o :: os) (a ++ b) = py_in (o :: os) b.
Proof.
  intros o os; induction a as [|c a IH]; intros b H; [reflexivity|].
  change ((c :: a) ++ b) with (c :: (a ++ b)).
  change (py_in (o :: os) (c :: a ++ b)) with
    (match strip_prefix (o :: os) (c :: a ++ b) with
     | Some _ => true
     | None => match c :: a ++ b with [] => false | _ :: s' => py_in (o :: os) s' end
     end).
  rewrite strip_prefix_head_ne by (intros ->; apply H; left; reflexivity).
  apply IH; intros Hin; apply H; right; exact Hin.
Qed.

Lemma py_in_absent : forall o os a, ~ In o a -> py_in (o :: os) a = false.
Proof.
  intros o os a H; rewrite <- (app_nil_r a), py_in_skip by exact H; reflexivity.
Qed.

Lemma replace_fuel_skip : forall o os new a b n,
  ~ In o a -> (List.length a <= n)%nat ->
  replace_fuel n (o :: os) new (a ++ b) = a ++ replace_fuel (n - List.length a) (o :: os) new b.
Proof.
  intros o os new; induction a as [|c a IH]; intros b n H Hn.
  - simpl; rewrite Nat.sub_0_r; reflexivity.
  - destruct n as [|n]; [simpl in Hn; lia|].
    simpl app; cbn [replace_fuel].
    rewrite strip_prefix_head_ne by (intros ->; apply H; left; reflexivity).
    rewrite IH; [reflexivity|intros Hin; apply H; right; exact Hin|simpl in Hn; lia].
Qed.

Lemma replace_fuel_id : forall n old new s,
  py_in old s = false -> replace_fuel n old new s = s.
Proof.
  induction n as [|n IH]; intros old new s H; [reflexivity|].
  destruct s as [|c s]; [reflexivity|].
  cbn [replace_fuel].
  assert (E : strip_prefix old (c :: s) = None /\ py_in old s = false).
  { change (py_in old (c :: s)) with
      (match strip_prefix old (c :: s) with
       | Some _ => true
       | None => match c :: s with [] => false | _ :: s' => py_in old s' end
       end) in H.
    destruct (strip_prefix old (c :: s)); [discriminate|split; [reflexivity|exact H]]. }
  destruct E as [E1 E2]; rewrite E1, IH by exact E2; reflexivity.
Qed.

Lemma replace_skip : forall o os new a b,
  ~ In o a -> replace (o :: os) new (a ++ b) = a ++ replace_fuel (List.length b) (o :: os) new b.
Proof.
  intros o os new a b H; unfold replace.
  rewrite replace_fuel_skip by (first [exact H|rewrite length_app; lia]).
  rewrite length_app; replace (List.length a + List.length b - List.length a)%nat
    with (List.length b) by lia; reflexivity.
Qed.

Lemma replace_absent : forall old new s, py_in old s = false -> replace old new s = s.
Proof. intros; apply replace_fuel_id; assumption. Qed.

Lemma digit_not : forall c, is_digit c = true ->
  c <> "h"%char /\ c <> "m"%char /\ c <> " "%char /\ is_space c = false /\
  Ascii.eqb c "+"%char = false /\ Ascii.eqb c "-"%char = false.
Proof.
  intros c H.
  split; [intros ->; discriminate H|].
  split; [intros ->; discriminate H|].
  split; [intros ->; discriminate H|].
  split.
  - unfold is_digit in H; apply andb_true_iff in H as [H1 H2].
    apply Z.leb_le in H1; apply Z.leb_le in H2.
    unfold is_space; cbv zeta.
    replace (code c <=? 13) with false by (symmetry; apply Z.leb_gt; lia).
    replace (code c <=? 32) with false by (symmetry; apply Z.leb_gt; lia).
    replace (code c =? 133) with false by (symmetry; apply Z.eqb_neq; lia).
    replace (code c =? 160) with false by (symmetry; apply Z.eqb_neq; lia).
    rewrite !andb_false_r; reflexivity.
  - split.
    + destruct (Ascii.eqb_spec c "+"%char); [subst c; discriminate H|reflexivity].
    + destruct (Ascii.eqb_spec c "-"%char); [subst c; discriminate H|reflexivity].
Qed.

Lemma digits_not_in : forall ds c,
  forallb is_digit ds = true -> In c ds ->
  c <> "h"%char /\ c <> "m"%char /\ c <> " "%char /\ is_space c = false.
Proof.
  intros ds c H Hc; rewrite forallb_forall in H.
  destruct (digit_not c (H c Hc)) as [? [? [? [? _]]]]; auto.
Qed.

Lemma digits_no_space : forall ds, forallb is_digit ds = true -> no_space ds = true.
Proof.
  intros ds H; unfold no_space; apply forallb_forall; intros c Hc.
  destruct (digits_not_in ds c H Hc) as [_ [_ [_ ->]]]; reflexivity.
Qed.

Lemma drop_spaces_no_space : forall s, no_space s = true -> drop_spaces s = s.
Proof.
  intros [|c s] H; [reflexivity|]; simpl in H |- *.
  apply andb_true_iff in H as [H _]; apply negb_true_iff in H; rewrite H; reflexivity.
Qed.

Lemma no_space_rev : forall s, no_space s = true -> no_space (rev s) = true.
Proof.
  unfold no_space; intros s H; rewrite forallb_forall in H |- *.
  intros c Hc; apply H, in_rev; exact Hc.
Qed.

Lemma digits_aux_some : forall s acc,
  forallb is_digit s = true -> exists v, digits_aux acc s = Some v.
Proof.
  induction s as [|c s IH]; intros acc H; [eexists; reflexivity|].
  simpl in H |- *; apply andb_true_iff in H as [Hc H]; rewrite Hc; apply IH; exact H.
Qed.

Lemma py_int_digits : forall ds,
  ds <> [] -> forallb is_digit ds = true -> exists v, py_int ds = Some v /\ 0 <= v.
Proof.
  intros ds Hne H.
  assert (Hs : strip ds = ds).
  { unfold strip; pose proof (digits_no_space ds H) as Hn.
    rewrite (drop_spaces_no_space ds Hn), (drop_spaces_no_space (rev ds) (no_space_rev ds Hn)).
    apply rev_involutive. }
  destruct ds as [|c s]; [congruence|].
  pose proof H as H'; simpl in H'; apply andb_true_iff in H' as [Hc Hs'].
  destruct (digit_not c Hc) as [_ [_ [_ [_ [Hp Hm]]]]].
  unfold py_int; rewrite Hs, Hp, Hm; simpl; rewrite Hc.
  destruct (digits_aux_some s (digit_value c) Hs') as [v Ev].
  exists v; split; [exact Ev|].
  apply (EffortFacts.py_digits_nonneg (c :: s)); simpl; rewrite Hc; exact Ev.
Qed.

End DigitFacts.

(** X4. A number of hours written [<digits>h] is read as that number
    times 60 minutes. *)
Theorem convert_effort_hours : forall ds,
  ds <> [] -> forallb is_digit ds = true ->
  exists v, py_int ds = Some v /\ 0 <= v /\
            convert_effort_to_minutes (ds ++ S_ "h") = v * 60.
Proof.
  intros ds Hne Hd.
  assert (Hh : ~ In "h"%char ds)
    by (intros Hc; exact (proj1 (DigitFacts.digits_not_in ds _ Hd Hc) eq_refl)).
  assert (Hm : ~ In "m"%char ds)
    by (intros Hc; exact (proj1 (proj2 (DigitFacts.digits_not_in ds _ Hd Hc)) eq_refl)).
  assert (Hsp : ~ In " "%char ds)
    by (intros Hc; exact (proj1 (proj2 (proj2 (DigitFacts.digits_not_in ds _ Hd Hc))) eq_refl)).
  destruct (DigitFacts.py_int_digits ds Hne Hd) as [v [Ev Hv]].
  exists v; split; [exact Ev|split; [exact Hv|]].
  assert (E1 : replace (S_ "h") (S_ "h ") (ds ++ S_ "h") = ds ++ S_ "h ")
    by (apply DigitFacts.replace_skip; exact Hh).
  assert (E2 : replace (S_ "min") (S_ " min") (ds ++ S_ "h ") = ds ++ S_ "h ")
    by (apply DigitFacts.replace_absent; apply DigitFacts.py_in_skip; exact Hm).
  assert (E3 : replace (S_ "  ") (S_ " ") (ds ++ S_ "h ") = ds ++ S_ "h ")
    by (apply DigitFacts.replace_absent; apply DigitFacts.py_in_skip; exact Hsp).
  assert (E4 : split (ds ++ S_ "h ") = [ds ++ S_ "h"]).
  { unfold split.
    replace (ds ++ S_ "h ") with ((ds ++ S_ "h") ++ [" "%char])
      by (rewrite <- app_assoc; reflexivity).
    rewrite SplitFacts.split_aux_word.
    2: { unfold no_space; rewrite forallb_app; apply andb_true_iff; split;
         [apply DigitFacts.digits_no_space; exact Hd|reflexivity]. }
    rewrite app_nil_r, rev_app_distr; simpl; rewrite rev_involutive; reflexivity. }
  assert (E5 : replace ["h"%char] [] (ds ++ ["h"%char]) = ds)
    by (rewrite DigitFacts.replace_skip by exact Hh; apply app_nil_r).
  unfold convert_effort_to_minutes; rewrite E1, E2, E3, E4; simpl fold_left.
  unfold effort_step; change (S_ "h") with ["h"%char].
  rewrite DigitFacts.py_in_skip by exact Hh; simpl py_in.
  rewrite E5, Ev; lia.
Qed.

Lemma convert_effort_hours_witness :
  (S_ "12" <> [] /\ forallb is_digit (S_ "12") = true) /\
  exists v, py_int (S_ "12") = Some v /\ 0 <= v /\
            convert_effort_to_minutes (S_ "12" ++ S_ "h") = v * 60.
Proof.
  split; [split; [discriminate|reflexivity]|].
  apply convert_effort_hours; [discriminate|reflexivity].
Defined.

(** X5. A number of minutes written [<digits>min] is always read as 0:
    the part ["min"] left alone by the split fails [int('')]. *)
Theorem convert_effort_minutes_dropped : forall ds,
  ds <> [] -> forallb is_digit ds = true ->
  convert_effort_to_minutes (ds ++ S_ "min") = 0.
Proof.
  intros ds Hne Hd.
  assert (Hh : ~ In "h"%char ds)
    by (intros Hc; exact (proj1 (DigitFacts.digits_not_in ds _ Hd Hc) eq_refl)).
  assert (Hm : ~ In "m"%char ds)
    by (intros Hc; exact (proj1 (proj2 (DigitFacts.digits_not_in ds _ Hd Hc)) eq_refl)).
  assert (Hsp : ~ In " "%char ds)
    by (intros Hc; exact (proj1 (proj2 (proj2 (DigitFacts.digits_not_in ds _ Hd Hc))) eq_refl)).
  assert (E1 : replace (S_ "h") (S_ "h ") (ds ++ S_ "min") = ds ++ S_ "min")
    by (apply DigitFacts.replace_absent; apply DigitFacts.py_in_skip; exact Hh).
  assert (E2 : replace (S_ "min") (S_ " min") (ds ++ S_ "min") = ds ++ S_ " min")
    by (apply DigitFacts.replace_skip; exact Hm).
  assert (E3 : replace (S_ "  ") (S_ " ") (ds ++ S_ " min") = ds ++ S_ " min")
    by (apply DigitFacts.replace_absent; apply DigitFacts.py_in_skip; exact Hsp).
  assert (E4 : split (ds ++ S_ " min") = [ds; S_ "min"]).
  { unfold split.
    rewrite SplitFacts.split_aux_word by (apply DigitFacts.digits_no_space; exact Hd).
    rewrite app_nil_r.
    destruct (rev ds) as [|c r] eqn:Er.
    { exfalso; apply Hne; rewrite <- (rev_involutive ds), Er; reflexivity. }
    simpl; change (rev r ++ [c]) with (rev (c :: r)); rewrite <- Er, rev_involutive; reflexivity. }
  assert (E0 : effort_step 0 ds = 0).
  { unfold effort_step; change (S_ "h") with ["h"%char];
    change (S_ "min") with ["m"%char; "i"%char; "n"%char].
    rewrite (DigitFacts.py_in_absent "h"%char [] ds Hh).
    rewrite (DigitFacts.py_in_absent "m"%char ["i"%char; "n"%char] ds Hm); reflexivity. }
  unfold convert_effort_to_minutes; rewrite E1, E2, E3, E4; simpl fold_left.
  rewrite E0; reflexivity.
Qed.

Lemma convert_effort_minutes_dropped_witness :
  (S_ "30" <> [] /\ forallb is_digit (S_ "30") = true) /\
  convert_effort_to_minutes (S_ "30" ++ S_ "min") = 0.
Proof.
  split; [split; [discriminate|reflexivity]|].
  apply convert_effort_minutes_dropped; [discriminate|reflexivity].
Defined.

(** ** [extract_relevant_info]: one record per work-log *)

Module ExtractFacts.

Ltac next_bind H :=
  match type of H with
  | context [obind ?m _] => destruct m; [cbn [obind] in H|discriminate]
  end.

Lemma worklog_loop_length : forall issue ws st st',
  worklog_loop issue ws st = Some st' ->
  List.length (relevant_info st') = (List.length (relevant_info st) + List.length ws)%nat.
Proof.
  intros issue; induction ws as [|w ws IH]; intros st st' H; simpl in H.
  - injection H as <-; simpl; lia.
  - repeat next_bind H; simpl in H.
    apply IH in H; cbn [relevant_info] in H; rewrite length_app in H.
    cbn [List.length] in H |- *; lia.
Qed.

Lemma issue_step_length : forall st issue st',
  issue_step st issue = Some st' ->
  exists ws, worklogs_of issue = Some ws /\
    List.length (relevant_info st') = (List.length (relevant_info st) + List.length ws)%nat.
Proof.
  intros st issue st' H; unfold issue_step, worklogs_of in *.
  destruct (dict_get issue (S_ "fields") (JObj [])) as [fields|] eqn:Ef;
    [|discriminate]; cbn [obind] in H |- *.
  destruct (dict_get fields (S_ "worklog") (JObj [])) as [wl|];
    [|discriminate]; cbn [obind] in H |- *.
  destruct (dict_get wl (S_ "worklogs") (JArr [])) as [wls|];
    [|discriminate]; cbn [obind] in H |- *.
  destruct (py_iter wls) as [ws|]; [|discriminate]; cbn [obind] in H.
  exists ws; split; [reflexivity|].
  destruct (worklog_loop issue ws st) as [st1|] eqn:E1; [|discriminate]; cbn [obind] in H.
  apply worklog_loop_length in E1; rewrite <- E1.
  destruct (dict_get fields (S_ "timetracking") (JObj [])) as [tt|];
    [|discriminate]; cbn [obind] in H.
  destruct (truthy tt).
  - repeat next_bind H; injection H as <-; reflexivity.
  - injection H as <-; reflexivity.
Qed.

Lemma issue_loop_length : forall issues st st',
  issue_loop issues st = Some st' ->
  exists wss, mapM worklogs_of issues = Some wss /\
    List.length (relevant_info st') =
      (List.length (relevant_info st) + list_sum (map (@List.length json) wss))%nat.
Proof.
  induction issues as [|i issues IH]; intros st st' H; simpl in H.
  - injection H as <-; exists []; split; [reflexivity|simpl; lia].
  - destruct (issue_step st i) as [st1|] eqn:E1; [|discriminate]; cbn [obind] in H.
    apply issue_step_length in E1 as [ws [Ews Hl]].
    apply IH in H as [wss [Ewss Hl']].
    exists (ws :: wss); split; [simpl; rewrite Ews, Ewss; reflexivity|].
    simpl; lia.
Qed.

End ExtractFacts.

(** X6. When [extract_relevant_info] returns, its list has exactly one
    record per work-log of the issues, whatever their [timetracking]. *)
Theorem extract_one_record_per_worklog : forall data recs,
  extract_relevant_info data = Some recs ->
  exists issues wss,
    obind (dict_get data (S_ "issues") (JArr [])) py_iter = Some issues /\
    mapM worklogs_of issues = Some wss /\
    List.length recs = list_sum (map (@List.length json) wss).
Proof.
  intros data recs H; unfold extract_relevant_info in H.
  destruct (dict_get data (S_ "issues") (JArr [])) as [iv|];
    [|discriminate]; cbn [obind] in H |- *.
  destruct (py_iter iv) as [issues|]; [|discriminate]; cbn [obind] in H.
  destruct (issue_loop issues ex_init) as [st|] eqn:E; [|discriminate]; cbn [obind] in H.
  injection H as <-.
  apply ExtractFacts.issue_loop_length in E as [wss [Ew Hl]].
  exists issues, wss; split; [reflexivity|split; [exact Ew|]].
  rewrite length_map, Hl; reflexivity.
Qed.

Lemma extract_one_record_per_worklog_witness :
  exists recs, extract_relevant_info (JObj Inputs.tw_pkv) = Some recs /\
  exists issues wss,
    obind (dict_get (JObj Inputs.tw_pkv) (S_ "issues") (JArr [])) py_iter = Some issues /\
    mapM worklogs_of issues = Some wss /\
    List.length recs = list_sum (map (@List.length json) wss).
Proof.
  destruct (extract_relevant_info (JObj Inputs.tw_pkv)) as [recs|] eqn:E;
    [|vm_compute in E; discriminate].
  exists recs; split; [reflexivity|].
  exact (extract_one_record_per_worklog _ _ E).
Defined.

(** ** The tables of jira_plot.py: records without an author name *)

Module TableFacts.
Import JiraPlot.

Lemma flat_map_all_nil : forall {A B} (f : A -> list B) l,
  (forall x, In x l -> f x = []) -> flat_map f l = [].
Proof.
  intros A B f; induction l as [|x l IH]; intros H; [reflexivity|].
  simpl; rewrite H by (left; reflexivity); apply IH; intros y Hy; apply H; right; exact Hy.
Qed.

Lemma groupby_agg_skip : forall stat col df1 x df2,
  Forall (fun r => user_name r = None) x ->
  groupby_agg stat col (df1 ++ x ++ df2) = groupby_agg stat col (df1 ++ df2).
Proof.
  intros stat col df1 x df2 Hx; rewrite Forall_forall in Hx.
  assert (HK : group_keys (df1 ++ x ++ df2) = group_keys (df1 ++ df2)).
  { unfold group_keys; rewrite !flat_map_app.
    rewrite (flat_map_all_nil _ x); [reflexivity|].
    intros r Hr; rewrite (Hx r Hr); reflexivity. }
  unfold groupby_agg; rewrite HK; apply map_ext; intros k.
  unfold group_values; rewrite !flat_map_app.
  rewrite (flat_map_all_nil _ x); [reflexivity|].
  intros r Hr; rewrite (Hx r Hr); reflexivity.
Qed.

Lemma filter_map_one : forall {A B} (f : A -> B) (p : B -> bool) l1 r l2,
  filter p (map f (l1 ++ r :: l2)) =
  filter p (map f l1) ++ filter p [f r] ++ filter p (map f l2).
Proof.
  intros A B f p l1 r l2; rewrite map_app, filter_app; simpl.
  destruct (p (f r)); reflexivity.
Qed.

Lemma tables_skip_no_user : forall M1 m M2,
  user_name m = None -> tables_of_frame (M1 ++ m :: M2) = tables_of_frame (M1 ++ M2).
Proof.
  intros M1 m M2 H; unfold tables_of_frame, average_after_months, total_time_spent_per_tester.
  cbv zeta.
  rewrite filter_map_one, (map_app _ M1 M2), filter_app.
  assert (HX : forall p : frame_row -> bool,
    Forall (fun x => user_name x = None)
      (filter p [mkfr (user_name m) (worklog_start m) (month m)
                   (replace_inf (time_spent_seconds m)) (replace_inf (time_spent_hours m))])).
  { intros p; simpl; destruct (p _); repeat constructor; simpl; exact H. }
  rewrite !groupby_agg_skip by apply HX.
  reflexivity.
Qed.

Lemma tables_drop_no_user_row : forall (h : frame_row -> frame_row) F1 fr F2,
  user_name (h fr) = None ->
  tables_of_frame (map h (F1 ++ fr :: F2)) =
  tables_of_frame (drop_row (List.length F1) (map h (F1 ++ fr :: F2))).
Proof.
  intros h F1 fr F2 H; rewrite map_app; simpl.
  rewrite <- (length_map h F1), AggFacts.drop_row_mid; apply tables_skip_no_user; exact H.
Qed.

End TableFacts.

(** X7. A record whose author has no display name (the column holds
    [None]) belongs to no group. When its value does not change the
    float32 downcast of the seconds column (it is within [5e-4] of its
    float32 rounding, or not finite) and its date does not fix the format
    [pd.to_datetime] infers (its date is skipped by that inference, or an
    earlier record has a usable date), both per-(user, month) tables are
    the same as for the records without it. *)
Theorem monthly_tables_ignore_no_user : forall to_numeric round32 guess cell rs1 r rs2,
  JiraPlot.raw_user_name r = None ->
  JiraPlot.fits32 round32 (to_numeric (JiraPlot.raw_time_spent_seconds r)) = true ->
  JiraPlot.skipped_for_guess (JiraPlot.raw_worklog_start r) = true \/
  existsb (fun r' => negb (JiraPlot.skipped_for_guess (JiraPlot.raw_worklog_start r'))) rs1
    = true ->
  JiraPlot.monthly_tables to_numeric round32 guess cell (rs1 ++ r :: rs2) =
  JiraPlot.monthly_tables to_numeric round32 guess cell (rs1 ++ rs2).
Proof.
  intros tn r32 g c rs1 r rs2 Hu Hf Hg.
  change (JiraPlot.monthly_tables tn r32 g c (rs1 ++ rs2)) with
    (JiraPlot.tables_of_frame
       (JiraPlot.with_months g c (JiraPlot.main_frame tn r32 (rs1 ++ rs2)))).
  rewrite <- (AggFacts.frame_drop tn r32 g c rs1 r rs2 Hf Hg).
  change (JiraPlot.monthly_tables tn r32 g c (rs1 ++ r :: rs2)) with
    (JiraPlot.tables_of_frame
       (JiraPlot.with_months g c (JiraPlot.main_frame tn r32 (rs1 ++ r :: rs2)))).
  rewrite AggFacts.main_frame_mid.
  rewrite <- (length_map (JiraPlot.numeric_row (JiraPlot.downcast_float r32
         (map (fun r => tn (JiraPlot.raw_time_spent_seconds r)) (rs1 ++ r :: rs2))) tn) rs1).
  unfold JiraPlot.with_months at 1 2; cbv zeta.
  apply TableFacts.tables_drop_no_user_row.
  exact Hu.
Qed.

Lemma monthly_tables_ignore_no_user_witness :
  JiraPlot.monthly_tables Inputs.to_numeric_ex Inputs.round32_ex Inputs.guess_ex
    Inputs.cell_ex [Inputs.rec_a1; Inputs.rec_none; Inputs.rec_a2] =
  JiraPlot.monthly_tables Inputs.to_numeric_ex Inputs.round32_ex Inputs.guess_ex
    Inputs.cell_ex [Inputs.rec_a1; Inputs.rec_a2].
Proof.
  exact (monthly_tables_ignore_no_user Inputs.to_numeric_ex Inputs.round32_ex
           Inputs.guess_ex Inputs.cell_ex [Inputs.rec_a1] Inputs.rec_none [Inputs.rec_a2]
           eq_refl ltac:(vm_compute; reflexivity) (or_intror eq_refl)).
Defined.

(** ** The histogram values of [plot_issues_effort] *)

Module HistFacts.

Lemma filterM_filter : forall {A} (p : A -> option bool) l sel,
  filterM p l = Some sel ->
  sel = filter (fun x => match p x with Some true => true | _ => false end) l.
Proof.
  intros A p; induction l as [|x l IH]; intros sel H; simpl in H.
  - injection H as <-; reflexivity.
  - destruct (p x) as [b|] eqn:Ep; [|discriminate].
    destruct (filterM p l) as [ys|] eqn:E; [|discriminate].
    injection H as <-; simpl; rewrite Ep, (IH ys eq_refl); destruct b; reflexivity.
Qed.

End HistFacts.

(** X8. When [plot_issues_effort] plots a project, it gives the histogram
    one value per issue having an ['effort'] key (the others are left
    out), and no value is negative when no effort string has a minus
    sign. *)
Theorem issues_effort_values_count : forall issues_detailed vs,
  issues_effort_values issues_detailed = Some (Some vs) ->
  exists issues,
    obind (getitem issues_detailed (S_ "issues")) py_iter = Some issues /\
    List.length vs =
      List.length (filter (fun i => match py_contains (S_ "effort") i with
                                    | Some true => true | _ => false end) issues) /\
    (forallb effort_has_no_minus issues = true -> Forall (fun v => 0 <= v) vs).
Proof.
  intros d vs H; unfold issues_effort_values in H.
  assert (Hd : forall (d' : json),
    match py_contains (S_ "issues") d' with
    | None => None
    | Some false => Some None
    | Some true =>
        obind (getitem d' (S_ "issues")) (fun issues_v =>
        obind (py_iter issues_v) (fun issues =>
        obind (filterM (py_contains (S_ "effort")) issues) (fun sel =>
        option_map Some (mapM issue_effort sel))))
    end = Some (Some vs) ->
    exists issues,
      obind (getitem d' (S_ "issues")) py_iter = Some issues /\
      List.length vs =
        List.length (filter (fun i => match py_contains (S_ "effort") i with
                                      | Some true => true | _ => false end) issues) /\
      (forallb effort_has_no_minus issues = true -> Forall (fun v => 0 <= v) vs)).
  { intros d' H'.
    destruct (py_contains (S_ "issues") d') as [[|]|]; try discriminate.
    destruct (getitem d' (S_ "issues")) as [iv|]; [|discriminate]; cbn [obind] in H' |- *.
    destruct (py_iter iv) as [issues|]; [|discriminate]; cbn [obind] in H'.
    destruct (filterM (py_contains (S_ "effort")) issues) as [sel|] eqn:Es; [|discriminate].
    cbn [obind] in H'.
    destruct (mapM issue_effort sel) as [l|] eqn:Em; [|discriminate].
    injection H' as <-.
    exists issues; split; [reflexivity|split].
    - rewrite (CumFacts.mapM_length _ _ _ Em), (HistFacts.filterM_filter _ _ _ Es); reflexivity.
    - intros Hminus; eapply CumFacts.mapM_Forall; [|exact Em].
      intros issue y Hin Hy.
      pose proof (CumFacts.filterM_in _ _ _ _ Es Hin) as Hin'.
      rewrite forallb_forall in Hminus; specialize (Hminus _ Hin').
      unfold effort_has_no_minus in Hminus; unfold issue_effort in Hy.
      destruct (getitem issue (S_ "effort")) as [[| | | s | |]|]; try discriminate.
      injection Hy as <-.
      apply EffortFacts.convert_nonneg; apply negb_true_iff; exact Hminus. }
  destruct d; try discriminate; apply Hd; exact H.
Qed.

Lemma issues_effort_values_count_witness :
  exists vs, issues_effort_values Inputs.issues_payload = Some (Some vs) /\
  exists issues,
    obind (getitem Inputs.issues_payload (S_ "issues")) py_iter = Some issues /\
    List.length vs =
      List.length (filter (fun i => match py_contains (S_ "effort") i with
                                    | Some true => true | _ => false end) issues) /\
    (forallb effort_has_no_minus issues = true -> Forall (fun v => 0 <= v) vs).
Proof.
  destruct (issues_effort_values Inputs.issues_payload) as [[vs|]|] eqn:E;
    try (vm_compute in E; discriminate).
  exists vs; split; [reflexivity|].
  exact (issues_effort_values_count _ _ E).
Defined.

(** ** [fetch_and_process_issues_for_tester] *)

(** X9. A file is written exactly when the tester's e-mail can be built,
    the search answers 200 with a JSON body, and the extraction returns a
    non-empty list; the file is [data/<end>/data_<trigram>-<end>.json] and
    holds that list. *)
Theorem fetch_tester_saved_iff : forall get t start_date end_date qs folder filename recs,
  fetch_and_process_issues_for_tester get t start_date end_date =
    (qs, Some (JSaved folder filename recs)) <->
  exists email j,
    generate_email (t_name t) (t_ext t) = Some email /\
    qs = [jql_query email start_date end_date] /\
    get (jql_query email start_date end_date) = Response 200 (Some j) /\
    extract_relevant_info j = Some recs /\ recs <> [] /\
    folder = S_ "data/" ++ end_date /\
    filename = S_ "data_" ++ t_trigram t ++ S_ "-" ++ end_date ++ S_ ".json".
Proof.
  intros get t sd ed qs folder fname recs; unfold fetch_and_process_issues_for_tester.
  split.
  - intros H.
    destruct (generate_email (t_name t) (t_ext t)) as [email|]; [|discriminate].
    injection H as <- H.
    destruct (get (jql_query email sd ed)) as [|status body] eqn:Eg; [discriminate|].
    destruct (status =? 200) eqn:Es; [|discriminate]; apply Z.eqb_eq in Es; subst status.
    destruct body as [j|]; [|discriminate].
    destruct (extract_relevant_info j) as [[|r rs]|] eqn:Ex; try discriminate.
    injection H as <- <- <-.
    exists email, j.
    split; [reflexivity|]; split; [reflexivity|]; split; [exact Eg|].
    split; [exact Ex|]; split; [discriminate|]; split; reflexivity.
  - intros [email [j [He [-> [Hg [Hx [Hne [-> ->]]]]]]]].
    rewrite He; cbv zeta; rewrite Hg, Z.eqb_refl, Hx.
    destruct recs; [congruence|reflexivity].
Qed.

Module FetchFacts.



End FetchFacts.



(** ** sonarqube_fetch.py *)

Module SonarFacts.
Import SonarFetch.

Lemma history_loop_some : forall get sd pk,
  (forall ps status j, get (S_ "/api/measures/search_history") ps = Response status (Some j) ->
     http_error status = false -> is_dict j = true) ->
  forall ms hist, exists h, history_loop get sd pk ms hist = Some h.
Proof.
  intros get sd pk Hget; induction ms as [|m ms IH]; intros hist; [eexists; reflexivity|].
  simpl; unfold request_json.
  destruct (get _ _) as [|status body] eqn:Eg; [apply IH|].
  destruct (http_error status) eqn:Eh; [apply IH|].
  destruct body as [j|]; [|apply IH].
  pose proof (Hget _ _ _ Eg Eh) as Hj.
  destruct j; try discriminate; simpl; apply IH.
Qed.

Lemma history_loop_none : forall get sd pk,
  (forall e ps, request_json get e ps = None) ->
  forall ms hist, history_loop get sd pk ms hist = Some hist.
Proof.
  intros get sd pk Hget; induction ms as [|m ms IH]; intros hist; [reflexivity|].
  simpl; rewrite Hget; apply IH.
Qed.

End SonarFacts.

(** X11. When every successful history answer is a JSON object (the
    shape SonarQube sends), [fetch_and_save_project_data] does not raise
    and always writes [<project>_fetch_metrics_history.json]: the dict
    [fetch_metrics_history] returns holds [project] and [metrics_history]
    however many requests failed, so it is never falsy. *)
Theorem fetch_and_save_always_saves_history : forall get start_date project_key,
  (forall ps status j,
     get (S_ "/api/measures/search_history") ps = Response status (Some j) ->
     http_error status = false -> is_dict j = true) ->
  exists e1 hist e3,
    SonarFetch.fetch_and_save_project_data get start_date project_key =
      ([e1; SonarFetch.SSaved (project_key ++ S_ "_fetch_metrics_history")
              (JObj [(S_ "project", JStr project_key); (S_ "metrics_history", JObj hist)]);
        e3], false).
Proof.
  intros get sd pk Hget.
  destruct (SonarFacts.history_loop_some get sd pk Hget
              (SonarFetch.split_sep ","%char SonarFetch.metrics) []) as [hist Eh].
  unfold SonarFetch.fetch_and_save_project_data, SonarFetch.fetch_metrics_history.
  rewrite Eh; cbv zeta.
  eexists; exists hist; eexists; reflexivity.
Qed.

Lemma fetch_and_save_always_saves_history_witness :
  (forall ps status j,
     Inputs.sonar_partial (S_ "/api/measures/search_history") ps =
       Response status (Some j) ->
     http_error status = false -> is_dict j = true) /\
  SonarFetch.fetch_metrics_history Inputs.sonar_partial (S_ "2024-01-01") (S_ "OMS") =
    Some (JObj [(S_ "project", JStr (S_ "OMS"));
                (S_ "metrics_history",
                 JObj [(S_ "coverage", JArr [Inputs.coverage_measure])])]) /\
  exists e1 hist e3,
    SonarFetch.fetch_and_save_project_data Inputs.sonar_partial
      (S_ "2024-01-01") (S_ "OMS") =
      ([e1; SonarFetch.SSaved (S_ "OMS" ++ S_ "_fetch_metrics_history")
              (JObj [(S_ "project", JStr (S_ "OMS")); (S_ "metrics_history", JObj hist)]);
        e3], false).
Proof.
  assert (H : forall ps status j,
     Inputs.sonar_partial (S_ "/api/measures/search_history") ps =
       Response status (Some j) ->
     http_error status = false -> is_dict j = true).
  { intros ps status j Hg _; unfold Inputs.sonar_partial in Hg.
    rewrite (eq_refl : key_eqb (S_ "/api/measures/search_history")
                         (S_ "/api/measures/search_history") = true) in Hg.
    destruct (existsb _ ps); [|discriminate].
    injection Hg as _ <-; reflexivity. }
  split; [exact H|]; split; [vm_compute; reflexivity|].
  exact (fetch_and_save_always_saves_history _ (S_ "2024-01-01") (S_ "OMS") H).
Defined.

(** X12. When every request fails (transport error, 4xx/5xx status or a
    body that is not JSON), the two failed fetches are logged and the
    metrics-history file is still written, with an empty
    [metrics_history]. *)
Theorem fetch_and_save_all_requests_fail : forall get start_date project_key,
  (forall endpoint params, SonarFetch.request_json get endpoint params = None) ->
  SonarFetch.fetch_and_save_project_data get start_date project_key =
    ([SonarFetch.SFailed (project_key ++ S_ "_fetch_metrics_for_project");
      SonarFetch.SSaved (project_key ++ S_ "_fetch_metrics_history")
        (JObj [(S_ "project", JStr project_key); (S_ "metrics_history", JObj [])]);
      SonarFetch.SFailed (project_key ++ S_ "_fetch_issues_detailed")], false).
Proof.
  intros get sd pk Hget.
  unfold SonarFetch.fetch_and_save_project_data, SonarFetch.fetch_metrics_history,
    SonarFetch.fetch_metrics_for_project, SonarFetch.fetch_issues_detailed.
  rewrite (SonarFacts.history_loop_none get sd pk Hget), !Hget; reflexivity.
Qed.

Lemma fetch_and_save_all_requests_fail_witness :
  (forall endpoint params,
     SonarFetch.request_json Inputs.sonar_503 endpoint params = None) /\
  SonarFetch.fetch_and_save_project_data Inputs.sonar_503
    (S_ "2024-01-01") (S_ "OMS") =
    ([SonarFetch.SFailed (S_ "OMS" ++ S_ "_fetch_metrics_for_project");
      SonarFetch.SSaved (S_ "OMS" ++ S_ "_fetch_metrics_history")
        (JObj [(S_ "project", JStr (S_ "OMS")); (S_ "metrics_history", JObj [])]);
      SonarFetch.SFailed (S_ "OMS" ++ S_ "_fetch_issues_detailed")], false).
Proof.
  assert (H : forall endpoint params,
     SonarFetch.request_json Inputs.sonar_503 endpoint params = None)
    by (intros; reflexivity).
  split; [exact H|].
  exact (fetch_and_save_all_requests_fail _ (S_ "2024-01-01") (S_ "OMS") H).
Defined.
